(** * The filter-content component: a shallow embedding of its filtering code

    Source: [addon/components/filter-content/component.js].

    The component filters a [content] array against a [query] string, looking
    at the values found under a space-delimited list of dot-notated
    [properties].  This file embeds the five functions that do the work
    ([normalizedProperties], [normalizedQuery], [aContainsB], [applyFilter],
    [getContentProps]) and proves properties of them.

    Conventions of the embedding:
    - a JavaScript string is a [string]; each [ascii] stands for one UTF-16
      code unit below 256;
    - a JavaScript number is an integer [Z] (no fractions, NaN or infinities);
    - an object is an association list of own properties, an array a list;
    - [console.error] is the only effect of the code: a computation returns its
      outcome together with the lines it wrote to the console;
    - every method body is wrapped in [try { ... } catch (exception)
      { console.error (name, exception) }], so a method that throws returns
      [undefined] after logging. *)

From Stdlib Require Import String Ascii List ZArith Bool Arith Lia DecimalString.
Import ListNotations.
Open Scope string_scope.
Open Scope list_scope.
Open Scope nat_scope.
Set Warnings "-register-all".
Set Implicit Arguments.

(* ================================================================== *)
(** ** JavaScript values *)

Inductive value : Type :=
| VUndef
| VNull
| VBool (b : bool)
| VNum (n : Z)
| VStr (s : string)
| VArr (elems : list value)
| VObj (fields : list (string * value)).

(** [!!v] *)
Definition truthy (v : value) : bool :=
  match v with
  | VUndef | VNull => false
  | VBool b => b
  | VNum n => negb (Z.eqb n 0)
  | VStr s => negb (String.eqb s "")
  | VArr _ | VObj _ => true
  end.

(** [a || b] *)
Definition or_else (a b : value) : value := if truthy a then a else b.

(** [Ember.typeOf] on the values of the model. *)
Definition typeOf (v : value) : string :=
  match v with
  | VUndef => "undefined"
  | VNull => "null"
  | VBool _ => "boolean"
  | VNum _ => "number"
  | VStr _ => "string"
  | VArr _ => "array"
  | VObj _ => "object"
  end.

(** The template literal [`${b}`] on a boolean, a number or a string; a
    number is written with all its digits, as JavaScript does for integers
    of magnitude below 1e21. *)
Definition ToString (v : value) : string :=
  match v with
  | VUndef => "undefined"
  | VNull => "null"
  | VBool true => "true"
  | VBool false => "false"
  | VNum n => NilZero.string_of_int (Z.to_int n)
  | VStr s => s
  | VArr _ => ""
  | VObj _ => "[object Object]"
  end.

(** [values.concat (x)]: an array argument is spread, anything else is
    appended as one element. *)
Definition Array_concat (values : list value) (x : value) : list value :=
  match x with
  | VArr l => values ++ l
  | _ => values ++ [x]
  end.

(* ================================================================== *)
(** ** Strings and the regular expressions of the component *)

Module Str.

Definition code (c : ascii) : nat := nat_of_ascii c.

Definition between (lo hi : nat) (c : ascii) : bool :=
  (lo <=? code c) && (code c <=? hi).

(** [\w] *)
Definition is_word (c : ascii) : bool :=
  between 48 57 c || between 65 90 c || between 97 122 c || (code c =? 95).

(** [\s], for code units below 256: TAB, LF, VT, FF, CR, SP, NBSP. *)
Definition is_space (c : ascii) : bool :=
  between 9 13 c || (code c =? 32) || (code c =? 160).

Definition is_dot (c : ascii) : bool := Ascii.eqb c ".".
Definition is_backslash (c : ascii) : bool := code c =? 92.

(** [[\w\s\@\.\-]] *)
Definition is_valid (c : ascii) : bool :=
  is_word c || is_space c || Ascii.eqb c "@" || is_dot c || Ascii.eqb c "-".

(** Length of the longest prefix of [s] made of characters in [p]. *)
Fixpoint run (p : ascii -> bool) (s : string) : nat :=
  match s with
  | String c t => if p c then S (run p t) else 0
  | EmptyString => 0
  end.

Fixpoint drop (n : nat) (s : string) : string :=
  match n, s with
  | S k, String _ t => drop k t
  | _, _ => s
  end.

(** A regular expression is represented by what it does at one position:
    the length of its match when it matches at the start of the given
    suffix.  None of the expressions of the component has an anchor, a
    look-around or an empty match, so this is all [replace] and [split]
    need. *)
Definition regex : Type := string -> option nat.

Definition at_least (n : nat) (p : ascii -> bool) : regex :=
  fun s => let k := run p s in if n <=? k then Some k else None.

(** [/[^\w\s\@\.\-]+/] *)
Definition re_invalid : regex := at_least 1 (fun c => negb (is_valid c)).
(** [/[\.]{2,}/] *)
Definition re_periods : regex := at_least 2 is_dot.
(** [/\s+/] *)
Definition re_spaces : regex := at_least 1 is_space.
(** [/\.+/] *)
Definition re_dots : regex := at_least 1 is_dot.
(** [/\\+/] *)
Definition re_backslashes : regex := at_least 1 is_backslash.

(** [/(\.+)?\s\1?/].  The group is greedy: it takes the whole run of [k]
    periods, and the match needs a whitespace character right after it
    (giving back periods cannot help, the character after a shorter group
    is a period).  The back-reference then takes the same [k] periods again
    when they are there; when the group did not take part ([k = 0]) it
    matches the empty string. *)
Definition re_delimiter : regex :=
  fun s =>
    let k := run is_dot s in
    match drop k s with
    | String w rest =>
        if is_space w
        then Some (k + 1 + (if k <=? run is_dot rest then k else 0))
        else None
    | EmptyString => None
    end.

(** [s.replace (re, by)] for a global [re]: the matches are found left to
    right, each search starting where the previous match ended.  [skip]
    counts the characters of the current match still to be dropped. *)
Fixpoint replace_from (re : regex) (by_ : string) (skip : nat) (s : string)
  : string :=
  match s with
  | EmptyString => EmptyString
  | String c t =>
      match skip with
      | S k => replace_from re by_ k t
      | O =>
          match re s with
          | Some (S k) => (by_ ++ replace_from re by_ k t)%string
          | _ => String c (replace_from re by_ O t)
          end
      end
  end.

Definition replace (re : regex) (by_ : string) (s : string) : string :=
  replace_from re by_ 0 s.

(** [s.split (re)]: the pieces between the matches, the empty pieces
    included.  The head of the result is the piece under construction. *)
Fixpoint split_from (re : regex) (skip : nat) (s : string) : list string :=
  match s with
  | EmptyString => [EmptyString]
  | String c t =>
      match skip with
      | S k => split_from re k t
      | O =>
          match re s with
          | Some (S k) => EmptyString :: split_from re k t
          | _ =>
              match split_from re O t with
              | piece :: more => String c piece :: more
              | [] => [String c EmptyString]
              end
          end
      end
  end.

Definition split (re : regex) (s : string) : list string :=
  split_from re 0 s.

(** [arr.join ('.')] *)
Definition join (pieces : list string) : string := String.concat "." pieces.

(** [s] has a substring equal to [p]. *)
Fixpoint contains (p s : string) : bool :=
  String.prefix p s ||
  match s with
  | String _ t => contains p t
  | EmptyString => false
  end.

(** [/\S/.test (s)] *)
Fixpoint has_non_space (s : string) : bool :=
  match s with
  | String c t => negb (is_space c) || has_non_space t
  | EmptyString => false
  end.

Definition is_empty (s : string) : bool :=
  match s with EmptyString => true | _ => false end.

End Str.

(* ================================================================== *)
(** ** [normalizedProperties] and [normalizedQuery] *)

(** Nothing in the body can throw on a string, so the [catch] is not
    reached and the result is the array itself. *)
Definition normalizedProperties (properties : string) : list string :=
  if Str.is_empty properties then []
  else
    filter (fun z => negb (String.eqb z ""))
      (Str.split Str.re_spaces
         (Str.replace Str.re_delimiter " "
            (Str.replace Str.re_periods "."
               (Str.replace Str.re_invalid "" properties)))).

(** [Ember.isPresent (query)]: not empty and not made of whitespace only. *)
Definition isPresent (query : string) : bool := Str.has_non_space query.

Definition normalizedQuery (query : string) : string :=
  if isPresent query then Str.replace Str.re_backslashes "" query else "".

(* ================================================================== *)
(** ** Effects: exceptions and the console *)

Inductive exn : Type :=
| TypeError (msg : string)
| SyntaxError (msg : string)
| AssertionError (msg : string)
| ThrownString (msg : string).

(** One line of [window.console.error (name, exception)]. *)
Definition console : Type := list (string * exn).

(** [OutOfFuel] belongs to the embedding, not to JavaScript: the recursion of
    [getContentProps] is bounded by a counter, and [getContentProps_total]
    shows that the counter it is started with is never used up. *)
Inductive outcome (A : Type) : Type :=
| Val (a : A)
| Raise (e : exn)
| OutOfFuel.
Arguments Raise {A} e.
Arguments OutOfFuel {A}.

Definition M (A : Type) : Type := (outcome A * console)%type.

Definition ret {A} (a : A) : M A := (Val a, []).
Definition throw {A} (e : exn) : M A := (Raise e, []).

Definition bind {A B} (m : M A) (f : A -> M B) : M B :=
  match m with
  | (Val a, out) => let (r, out') := f a in (r, out ++ out')
  | (Raise e, out) => (Raise e, out)
  | (OutOfFuel, out) => (OutOfFuel, out)
  end.

Notation "x <- m ;; k" := (bind m (fun x => k))
  (at level 61, m at next level, right associativity).

(** [try { body } catch (exception) { console.error (name, exception) }]:
    after the catch the method falls off its end, which [undefined] stands
    for. *)
Definition try_catch {A} (name : string) (undefined : A) (body : M A) : M A :=
  match body with
  | (Raise e, out) => (Val undefined, out ++ [(name, e)])
  | r => r
  end.

(** [arr.forEach (x => s = f (x, s))], the callback updating a variable [s]
    of the enclosing scope. *)
Fixpoint forEach {A S} (l : list A) (f : A -> S -> M S) (s : S) : M S :=
  match l with
  | [] => ret s
  | x :: l' => s' <- f x s ;; forEach l' f s'
  end.

(** [arr.filter (x => ...)], the callback reading and writing a variable [s]
    of the enclosing scope. *)
Fixpoint Array_filter {A S} (l : list A) (f : A -> S -> M (bool * S)) (s : S)
  : M (list A * S) :=
  match l with
  | [] => ret ([], s)
  | x :: l' =>
      r <- f x s ;;
      rest <- Array_filter l' f (snd r) ;;
      ret (if fst r then x :: fst rest else fst rest, snd rest)
  end.

(* ================================================================== *)
(** ** [Ember.get] and property access *)

Fixpoint own_property (key : string) (fields : list (string * value)) : value :=
  match fields with
  | [] => VUndef
  | (k, v) :: rest => if String.eqb k key then v else own_property key rest
  end.

Fixpoint digits (acc : nat) (s : string) : option nat :=
  match s with
  | EmptyString => Some acc
  | String c t =>
      if Str.between 48 57 c then digits (10 * acc + (Str.code c - 48)) t
      else None
  end.

(** A key that is the canonical decimal form of an array index. *)
Definition array_index (key : string) : option nat :=
  match key with
  | EmptyString => None
  | String c t =>
      if Str.between 49 57 c then digits 0 key
      else if Ascii.eqb c "0" && Str.is_empty t then Some 0
      else None
  end.

Fixpoint char_at (i : nat) (s : string) : value :=
  match s, i with
  | EmptyString, _ => VUndef
  | String c _, O => VStr (String c EmptyString)
  | String _ t, S k => char_at k t
  end.

(** [Ember.get (obj, key)] for a key without periods, on plain data (Ember 2):
    [get] asserts that [obj] is neither [undefined] nor [null], returns [obj]
    itself for the empty key, and reads [obj[key]] otherwise.  The model
    reads own properties only (and the length and the indices of arrays and
    strings): what [obj[key]] finds through the prototype chain
    ([constructor], [toString], ...), computed properties and Ember's
    additions to the array prototype are not part of it, and the results
    below that depend on a lookup are stated relative to that lookup. *)
Definition Ember_get (obj : value) (key : string) : M value :=
  match obj with
  | VUndef | VNull =>
      throw (AssertionError "Cannot call get on an undefined object")
  | _ =>
      if Str.is_empty key then ret obj
      else
        match obj with
        | VObj fields => ret (own_property key fields)
        | VArr l =>
            if String.eqb key "length" then ret (VNum (Z.of_nat (length l)))
            else
              match array_index key with
              | Some i => ret (nth i l VUndef)
              | None => ret VUndef
              end
        | VStr s =>
            if String.eqb key "length"
            then ret (VNum (Z.of_nat (String.length s)))
            else
              match array_index key with
              | Some i => ret (char_at i s)
              | None => ret VUndef
              end
        | _ => ret VUndef
        end
  end.

(** What [if (item.forEach) { item.forEach (...) }] finds: nothing to iterate,
    the elements of an array, or an exception (reading a property of
    [undefined] or [null]; calling an own property [forEach] of a plain
    object, which is no function in this model). *)
Definition item_forEach (item : value) : M (option (list value)) :=
  match item with
  | VUndef | VNull => throw (TypeError "Cannot read property 'forEach'")
  | VArr l => ret (Some l)
  | VObj fields =>
      if truthy (own_property "forEach" fields)
      then throw (TypeError "item.forEach is not a function")
      else ret None
  | _ => ret None
  end.

(* ================================================================== *)
(** ** [getContentProps] *)

Definition recursion_limit : exn :=
  ThrownString "recursing too far, limit is 100 levels".

(** The callback of [item.forEach] under [@each].  [values] and [inception]
    are variables of the enclosing call: [++inception] is a pre-increment of
    that one variable, so every element that recurses bumps it for the
    elements after it. *)
Definition each_element (self : value -> string -> nat -> M value)
  (propArr : list string) (i : value) (st : list value * nat)
  : M (list value * nat) :=
  let '(values, inception) := st in
  match propArr with
  | [] => ret (Array_concat values i, inception)
  | _ =>
      x <- self i (Str.join propArr) (S inception) ;;
      ret (Array_concat values x, S inception)
  end.

(** The body of the method, [self] standing for [this.getContentProps]. *)
Definition getContentProps_body (self : value -> string -> nat -> M value)
  (item : value) (property : string) (inception : nat) : M value :=
  try_catch "getContentProps" VUndef
    match Str.split Str.re_dots property with
    | [] => ret (VArr [])
    | prop :: propArr =>
        if 100 <? inception then throw recursion_limit
        else
          values <-
            (if String.eqb prop "@each" then
               each <- item_forEach item ;;
               match each with
               | Some elems =>
                   r <- forEach elems (each_element self propArr)
                          ([], inception) ;;
                   ret (fst r)
               | None => ret []
               end
             else
               got <- Ember_get item prop ;;
               let z := or_else got (VArr []) in
               match propArr with
               | [] => ret (Array_concat [] z)
               | _ =>
                   x <- self z (Str.join propArr) (S inception) ;;
                   ret (Array_concat [] x)
               end) ;;
          ret (VArr values)
    end.

(** [fuel] bounds the nesting of the calls; each call gives the next one a
    strictly shorter [property], so [S (String.length property)] is enough
    ([getContentProps_total], [getContentProps_unfold]). *)
Fixpoint getContentProps_rec (fuel : nat) : value -> string -> nat -> M value :=
  match fuel with
  | O => fun _ _ _ => (OutOfFuel, [])
  | S fuel' => getContentProps_body (getContentProps_rec fuel')
  end.

Definition getContentProps (item : value) (property : string)
  (inception : nat) : M value :=
  getContentProps_rec (S (String.length property)) item property inception.

(* ================================================================== *)
(** ** [aContainsB] and [applyFilter] *)

Section Filter.

(** [new RegExp (pattern, 'g')]: [None] when the constructor throws a
    SyntaxError, otherwise the compiled expression, represented by the
    test "some substring of the subject matches". *)
Variable RegExp : string -> option (string -> bool).

Definition new_RegExp (pattern : string) : M (string -> bool) :=
  match RegExp pattern with
  | Some regex => ret regex
  | None => throw (SyntaxError "Invalid regular expression")
  end.

(** [a.match (regex) ? true : false]: only a string has a [match] method. *)
Definition String_match (a : value) (regex : string -> bool) : M bool :=
  match a with
  | VStr s => ret (regex s)
  | _ => throw (TypeError "a.match is not a function")
  end.

Definition matchTypes : list string := ["boolean"; "number"; "string"].

(** [matchTypes.indexOf (t) !== -1] *)
Definition is_matchType (t : string) : bool := existsb (String.eqb t) matchTypes.

Definition aContainsB (a b : value) : M value :=
  try_catch "aContainsB" VUndef
    (if is_matchType (typeOf a) && is_matchType (typeOf b) then
       regex <- new_RegExp (ToString b) ;;
       matched <- String_match a regex ;;
       ret (VBool matched)
     else ret (VBool false)).

(** [while (matched === false && values.length)
      { matched = this.aContainsB (values.shift (), query) ? true : false; }]
    entered with [matched === false]; returns [matched] and what is left of
    [values]. *)
Fixpoint scan_values (values : list value) (query : string)
  : M (bool * list value) :=
  match values with
  | [] => ret (false, [])
  | v :: rest =>
      r <- aContainsB v (VStr query) ;;
      if truthy r then ret (true, rest) else scan_values rest query
  end.

(** The callback of [content.filter].  [values] is a variable of
    [applyFilter] shared by all the calls: it is read on entry and set to
    [[]] before the return. *)
Definition filter_item (properties : list string) (query : string)
  (item : value) (values : list value) : M (bool * list value) :=
  values <- forEach properties
              (fun prop values =>
                 x <- getContentProps item prop 0 ;;
                 ret (Array_concat values (or_else x (VArr []))))
              values ;;
  r <- scan_values values query ;;
  ret (fst r, []).

(** [content] is an array, so [this.get ('content') || []] is [content] and
    the early [return] under [!content || !properties] is not taken.  The
    result is the array given to [this.set ('filteredContent', ...)];
    [None] stands for a body that threw before reaching it. *)
Definition applyFilter (content : list value) (properties query : string)
  : M (option (list value)) :=
  try_catch "applyFilter" None
    (let properties := normalizedProperties properties in
     let query := normalizedQuery query in
     if negb (length content =? 0) && negb (length properties =? 0)
        && negb (Str.is_empty query)
     then
       r <- Array_filter content (filter_item properties query) [] ;;
       ret (Some (fst r))
     else ret (Some content)).

(** The filtered content as the caller sees it. *)
Definition filteredContent (content : list value) (properties query : string)
  : option (list value) :=
  match fst (applyFilter content properties query) with
  | Val r => r
  | _ => None
  end.

End Filter.

(* ================================================================== *)
(** ** Literal patterns *)

(** The syntax characters of a pattern: [^ $ \ . * + ? ( ) [ ] { } |]. *)
Definition syntax_character (c : ascii) : bool :=
  existsb (Ascii.eqb c)
    ["^"; "$"; "\"; "."; "*"; "+"; "?"; "("; ")"; "["; "]"; "{"; "}"; "|"]%char.

Fixpoint literal (pattern : string) : bool :=
  match pattern with
  | EmptyString => true
  | String c t => negb (syntax_character c) && literal t
  end.

(** What the proofs below know of [new RegExp (pattern, 'g')]: a pattern
    without syntax characters matches exactly its own occurrences, and the
    pattern made of one opening parenthesis is rejected (unterminated
    group). *)
Definition literal_law (RegExp : string -> option (string -> bool)) : Prop :=
  forall pattern, literal pattern = true ->
    exists regex, RegExp pattern = Some regex /\
                  forall subject, regex subject = Str.contains pattern subject.

Definition unterminated_law (RegExp : string -> option (string -> bool)) : Prop :=
  RegExp "(" = None.

(** The least engine with these two properties, for closed examples: it
    compiles the literal patterns and nothing else, so it stands for
    [new RegExp] on literal patterns and on ["("] only. *)
Definition literal_RegExp (pattern : string) : option (string -> bool) :=
  if literal pattern then Some (Str.contains pattern) else None.

(** Nested arrays and paths of [@each] segments, for the examples. *)
Fixpoint nest (n : nat) (v : value) : value :=
  match n with
  | O => v
  | S k => VArr [nest k v]
  end.

Fixpoint each_path (n : nat) : list string :=
  match n with
  | O => []
  | S k => "@each" :: each_path k
  end.

(** The verdict of the filter callback on one item, the shared [values]
    being empty on entry. *)
Definition accepts (RegExp : string -> option (string -> bool))
  (properties : list string) (query : string) (item : value) : bool :=
  match fst (filter_item RegExp properties query item []) with
  | Val (matched, _) => matched
  | _ => false
  end.

(** A path segment as [split] produces it in the middle of a path: not
    empty, without a period. *)
Fixpoint no_dot (s : string) : bool :=
  match s with
  | EmptyString => true
  | String c t => negb (Str.is_dot c) && no_dot t
  end.

Definition segment (s : string) : bool := negb (Str.is_empty s) && no_dot s.

(** [walk item segs v]: looking up the segments of [segs] one after the
    other from [item], as [getContentProps] does for segments other than
    [@each] (an absent or falsy intermediate value is replaced by [[]]),
    ends on the value [v] of the last segment. *)
Inductive walk : value -> list string -> value -> Prop :=
| walk_last item prop v :
    Ember_get item prop = ret v ->
    walk item [prop] v
| walk_step item prop z rest v :
    Ember_get item prop = ret z ->
    walk (or_else z (VArr [])) rest v ->
    walk item (prop :: rest) v.


(** A computation that returns normally. *)
Definition returns {A} (m : M A) : Prop := exists a out, m = (Val a, out).

(** A computation that ends within its fuel, normally or by an exception. *)
Definition ends {A} (m : M A) : Prop := fst m <> OutOfFuel.

(** Whether [applyFilter] filters at all: the test
    [content.length && properties.length && !!query]. *)
Definition filters (content : list value) (properties query : string) : bool :=
  negb (length content =? 0)
  && negb (length (normalizedProperties properties) =? 0)
  && negb (Str.is_empty (normalizedQuery query)).

(** The characters of a string all satisfy [p]. *)
Fixpoint all_chars (p : ascii -> bool) (s : string) : bool :=
  match s with
  | EmptyString => true
  | String c t => p c && all_chars p t
  end.

(** A segment that is looked up with [Ember.get]. *)
Definition plain_segment (s : string) : bool :=
  segment s && negb (String.eqb s "@each").

(** The line [getContentProps] writes when it hits its limit. *)
Definition limit_line : string * exn := ("getContentProps", recursion_limit).

Definition starts_with_dot (s : string) : bool :=
  match s with
  | String c _ => Str.is_dot c
  | EmptyString => false
  end.

(** No two periods in a row. *)
Fixpoint no_double_dot (s : string) : bool :=
  match s with
  | String c t => negb (Str.is_dot c && starts_with_dot t) && no_double_dot t
  | EmptyString => true
  end.

Definition no_space (s : string) : bool :=
  all_chars (fun c => negb (Str.is_space c)) s.

(** A normalized path as the filter needs it: not empty, without
    whitespace, without two periods in a row. *)
Definition clean_path (path : string) : bool :=
  negb (String.eqb path "") && (no_space path && no_double_dot path).

(** ** Definitions for the further properties *)

(** The characters of [s] that satisfy [p], in order. *)
Fixpoint keep (p : ascii -> bool) (s : string) : string :=
  match s with
  | EmptyString => EmptyString
  | String c t => if p c then String c (keep p t) else keep p t
  end.

(** A character that can occur in a normalized path: [\w], [@], [.], [-]. *)
Definition path_char (c : ascii) : bool :=
  Str.is_valid c && negb (Str.is_space c).

(** Whitespace, or a character that [normalizedProperties] strips. *)
Definition blank_char (c : ascii) : bool := negb (path_char c).

(** A path that normalization leaves alone: every character is a path
    character, and every period is followed by a character that is no
    period (so there is no period at the end). *)
Fixpoint tight (s : string) : bool :=
  match s with
  | EmptyString => true
  | String c t =>
      path_char c
      && (negb (Str.is_dot c)
          || (negb (Str.is_empty t) && negb (starts_with_dot t)))
      && tight t
  end.

Definition tight_path (path : string) : bool :=
  negb (Str.is_empty path) && tight path.

Definition not_backslash (c : ascii) : bool := negb (Str.is_backslash c).

(** The value a method call returned. *)
Definition returned (m : M value) : value :=
  match fst m with
  | Val v => v
  | _ => VUndef
  end.

(** [this.aContainsB (v, query) ? true : false] *)
Definition matches (RegExp : string -> option (string -> bool))
  (query : string) (v : value) : bool :=
  truthy (returned (aContainsB RegExp v (VStr query))).

(** The values the filter callback gathers for one item: those of every
    path, in the order of the paths. *)
Definition resolved (properties : list string) (item : value) : list value :=
  fold_left
    (fun values prop =>
       Array_concat values
         (or_else (returned (getContentProps item prop 0)) (VArr [])))
    properties [].

(** The verdict of one filtering pass on an item: every item passes when
    the properties or the query normalize to nothing. *)
Definition verdict (RegExp : string -> option (string -> bool))
  (properties query : string) (item : value) : bool :=
  if negb (length (normalizedProperties properties) =? 0)
     && negb (Str.is_empty (normalizedQuery query))
  then accepts RegExp (normalizedProperties properties)
         (normalizedQuery query) item
  else true.

(** Every string of the list but the last one is not empty. *)
Fixpoint all_but_last_nonempty (l : list string) : bool :=
  match l with
  | [] => true
  | x :: rest =>
      match rest with
      | [] => true
      | _ => negb (Str.is_empty x) && all_but_last_nonempty rest
      end
  end.

(** The path resolver on a path that is given as the list of its segments:
    the same steps as [getContentProps], the remaining segments being handed
    on as they are instead of being joined and split again. *)
Fixpoint getContentProps_segments (propArr : list string) (item : value)
  (inception : nat) {struct propArr} : M value :=
  try_catch "getContentProps" VUndef
    match propArr with
    | [] => ret (VArr [])
    | prop :: propArr' =>
        if 100 <? inception then throw recursion_limit
        else
          values <-
            (if String.eqb prop "@each" then
               each <- item_forEach item ;;
               match each with
               | Some elems =>
                   r <- forEach elems
                          (each_element
                             (fun i _ n => getContentProps_segments propArr' i n)
                             propArr')
                          ([], inception) ;;
                   ret (fst r)
               | None => ret []
               end
             else
               got <- Ember_get item prop ;;
               let z := or_else got (VArr []) in
               match propArr' with
               | [] => ret (Array_concat [] z)
               | _ =>
                   x <- getContentProps_segments propArr' z (S inception) ;;
                   ret (Array_concat [] x)
               end) ;;
          ret (VArr values)
    end.

(** What a path of plain segments yields for the value [v] at its end. *)
Definition values_of (v : value) : list value :=
  match v with
  | VArr elems => elems
  | _ => if truthy v then [v] else []
  end.

(** A console line written by one of the two helper methods. *)
Definition helper_line (line : string * exn) : bool :=
  String.eqb (fst line) "getContentProps" || String.eqb (fst line) "aContainsB".

(** The lines a computation wrote all satisfy [p]. *)
Definition lines {A} (p : string * exn -> bool) (m : M A) : Prop :=
  forallb p (snd m) = true.



(* ================================================================== *)
(** * Properties *)

(** ** The monad *)

Lemma bind_ret {A B} (a : A) (f : A -> M B) : bind (ret a) f = f a.
Proof. unfold bind, ret. destruct (f a). reflexivity. Qed.

Lemma bind_val_nil {A B} (a : A) (f : A -> M B) : bind (Val a, []) f = f a.
Proof. exact (bind_ret a f). Qed.

Lemma bind_val {A B} (a : A) out (f : A -> M B) :
  bind (Val a, out) f = (fst (f a), out ++ snd (f a)).
Proof. unfold bind. destruct (f a). reflexivity. Qed.

Lemma bind_returns {A B} (m : M A) (f : A -> M B) :
  returns m -> (forall a, returns (f a)) -> returns (bind m f).
Proof.
  intros (a & out & ->) Hf. destruct (Hf a) as (b & out' & E).
  rewrite bind_val, E. cbn. now exists b, (out ++ out').
Qed.

Lemma try_catch_returns {A} name (u : A) (m : M A) :
  fst m <> OutOfFuel -> returns (try_catch name u m).
Proof.
  destruct m as [[a | e |] out]; cbn; intros H.
  - now exists a, out.
  - now exists u, (out ++ [(name, e)]).
  - congruence.
Qed.

Lemma forEach_ext {A S} (l : list A) (f g : A -> S -> M S) (s : S) :
  (forall x s', In x l -> f x s' = g x s') -> forEach l f s = forEach l g s.
Proof.
  revert s. induction l as [| x l IH]; intros s H; cbn; [reflexivity |].
  rewrite (H x s (or_introl eq_refl)).
  destruct (g x s) as [[s' | e |] out]; cbn; try reflexivity.
  rewrite IH; [reflexivity |]. intros y s'' Hy. apply H. now right.
Qed.

Lemma forEach_app {A S} (l1 l2 : list A) (f : A -> S -> M S) (s : S) :
  forEach (l1 ++ l2) f s = (s' <- forEach l1 f s ;; forEach l2 f s').
Proof.
  revert s. induction l1 as [| x l1 IH]; intros s.
  - cbn [app forEach]. now rewrite bind_ret.
  - cbn. destruct (f x s) as [[s' | e |] out]; cbn; try reflexivity.
    rewrite IH.
    destruct (forEach l1 f s') as [[s'' | e |] out']; cbn; try reflexivity.
    destruct (forEach l2 f s'') as [r out'']. now rewrite app_assoc.
Qed.

(** ** [split] and [join] *)

Lemma split_from_not_nil re skip s : Str.split_from re skip s <> [].
Proof.
  revert skip. induction s as [| c t IH]; intros skip; cbn; [discriminate |].
  destruct skip as [| k]; [| apply IH].
  destruct (re (String c t)) as [[| k] |]; try discriminate;
    destruct (Str.split_from re 0 t); discriminate.
Qed.

Lemma length_append (s1 s2 : string) :
  String.length (s1 ++ s2) = String.length s1 + String.length s2.
Proof. induction s1 as [| c s1 IH]; cbn; [reflexivity | now rewrite IH]. Qed.

Lemma join_cons a b l :
  Str.join (a :: b :: l) = (a ++ "." ++ Str.join (b :: l))%string.
Proof. reflexivity. Qed.

Lemma join_cons_length a l :
  l <> [] ->
  String.length (Str.join (a :: l)) = String.length a + 1 + String.length (Str.join l).
Proof.
  destruct l as [| b l]; [congruence | intros _].
  rewrite join_cons, !length_append. cbn [String.length]. lia.
Qed.

Lemma split_from_join_length re skip s :
  String.length (Str.join (Str.split_from re skip s)) <= String.length s.
Proof.
  revert skip. induction s as [| c t IH]; intros skip; cbn [Str.split_from].
  - cbn. lia.
  - assert (Hcons : String.length
              (Str.join (match Str.split_from re 0 t with
                         | piece :: more => String c piece :: more
                         | [] => [String c EmptyString]
                         end)) <= String.length (String c t)).
    { specialize (IH 0). destruct (Str.split_from re 0 t) as [| p [| q more]] eqn:E.
      - now apply split_from_not_nil in E.
      - cbn in *. lia.
      - rewrite join_cons in *. cbn in *. lia. }
    destruct skip as [| k].
    + destruct (re (String c t)) as [[| k] |]; try exact Hcons.
      specialize (IH k). rewrite join_cons_length by apply split_from_not_nil.
      cbn. lia.
    + specialize (IH k). cbn. lia.
Qed.

(** The path handed to the recursive call is strictly shorter. *)
Lemma split_join_shorter property prop propArr :
  Str.split Str.re_dots property = prop :: propArr -> propArr <> [] ->
  String.length (Str.join propArr) < String.length property.
Proof.
  intros E Hne.
  pose proof (split_from_join_length Str.re_dots 0 property) as H.
  unfold Str.split in E. rewrite E, join_cons_length in H by assumption. lia.
Qed.

(** ** [getContentProps] returns, and its fuel is never used up *)

Lemma getContentProps_body_ext self1 self2 item property inception :
  (forall i p n, String.length p < String.length property ->
                 self1 i p n = self2 i p n) ->
  getContentProps_body self1 item property inception
  = getContentProps_body self2 item property inception.
Proof.
  intros H. unfold getContentProps_body.
  destruct (Str.split Str.re_dots property) as [| prop propArr] eqn:E;
    [reflexivity |].
  destruct propArr as [| q propArr]; [reflexivity |].
  assert (L : String.length (Str.join (q :: propArr)) < String.length property)
    by (eapply split_join_shorter; [eassumption | discriminate]).
  destruct (100 <? inception); [reflexivity |].
  destruct (String.eqb prop "@each").
  - destruct (item_forEach item) as [[[elems |] | e |] out]; try reflexivity.
    rewrite !(bind_val (Some elems)). cbn beta iota.
    rewrite (forEach_ext elems (each_element self1 (q :: propArr))
               (each_element self2 (q :: propArr))); [reflexivity |].
    intros x [values n] _. cbn. now rewrite H.
  - destruct (Ember_get item prop) as [[got | e |] out]; try reflexivity.
    rewrite !(bind_val got). cbn beta iota zeta. now rewrite H.
Qed.

Lemma getContentProps_rec_fuel fuel1 fuel2 item property inception :
  String.length property < fuel1 -> String.length property < fuel2 ->
  getContentProps_rec fuel1 item property inception
  = getContentProps_rec fuel2 item property inception.
Proof.
  revert fuel2 item property inception.
  induction fuel1 as [| f1 IH]; intros [| f2] item property inception H1 H2;
    try lia.
  cbn [getContentProps_rec]. apply getContentProps_body_ext.
  intros i p n Hp. apply IH; lia.
Qed.

(** The equation of the method: the model of [getContentProps] is its own
    body, whatever the path. *)
Lemma getContentProps_unfold item property inception :
  getContentProps item property inception
  = getContentProps_body getContentProps item property inception.
Proof.
  unfold getContentProps at 1. cbn [getContentProps_rec].
  apply getContentProps_body_ext. intros i p n Hp.
  unfold getContentProps. apply getContentProps_rec_fuel; lia.
Qed.

Lemma returns_ends {A} (m : M A) : returns m -> ends m.
Proof. intros (a & out & ->). discriminate. Qed.

Lemma ret_returns {A} (a : A) : returns (ret a).
Proof. now exists a, []. Qed.

Lemma throw_ends {A} e : ends (@throw A e).
Proof. discriminate. Qed.

Lemma bind_ends {A B} (m : M A) (f : A -> M B) :
  ends m -> (forall a, ends (f a)) -> ends (bind m f).
Proof.
  destruct m as [[a | e |] out]; unfold ends; cbn; intros Hm Hf;
    try congruence.
  specialize (Hf a). destruct (f a). exact Hf.
Qed.

Lemma forEach_returns {A S} (l : list A) (f : A -> S -> M S) (s : S) :
  (forall x s', returns (f x s')) -> returns (forEach l f s).
Proof.
  intros Hf. revert s. induction l as [| x l IH]; intros s; cbn [forEach].
  - apply ret_returns.
  - apply bind_returns; [apply Hf | apply IH].
Qed.

Lemma Ember_get_ends obj key : ends (Ember_get obj key).
Proof.
  unfold Ember_get.
  destruct obj; try apply throw_ends;
    destruct (Str.is_empty key); try (apply returns_ends, ret_returns);
    destruct (String.eqb key "length"); try (apply returns_ends, ret_returns);
    destruct (array_index key); apply returns_ends, ret_returns.
Qed.

Lemma item_forEach_ends item : ends (item_forEach item).
Proof.
  destruct item; cbn; try apply throw_ends; try (apply returns_ends, ret_returns).
  destruct (truthy _); [apply throw_ends | apply returns_ends, ret_returns].
Qed.

Lemma getContentProps_body_returns self item property inception :
  (forall i p n, String.length p < String.length property ->
                 returns (self i p n)) ->
  returns (getContentProps_body self item property inception).
Proof.
  intros H. unfold getContentProps_body. apply try_catch_returns.
  destruct (Str.split Str.re_dots property) as [| prop propArr] eqn:E;
    [discriminate |].
  destruct (100 <? inception); [discriminate |].
  apply bind_ends; [| intros; discriminate].
  assert (Hself : propArr <> [] ->
                  forall i n, returns (self i (Str.join propArr) n)).
  { intros Hne i n. apply H. eapply split_join_shorter; eassumption. }
  destruct (String.eqb prop "@each").
  - apply bind_ends; [apply item_forEach_ends |]. intros [elems |];
      [| discriminate].
    apply bind_ends; [| intros; discriminate].
    apply returns_ends, forEach_returns. intros x [values n].
    destruct propArr as [| q propArr]; cbn [each_element];
      [apply ret_returns |].
    apply bind_returns; [apply Hself; discriminate | intros; apply ret_returns].
  - apply bind_ends; [apply Ember_get_ends |]. intros got. cbn zeta.
    destruct propArr as [| q propArr]; [discriminate |].
    apply bind_ends; [| intros; discriminate].
    apply returns_ends, Hself. discriminate.
Qed.

Lemma getContentProps_rec_returns fuel item property inception :
  String.length property < fuel ->
  returns (getContentProps_rec fuel item property inception).
Proof.
  revert item property inception.
  induction fuel as [| fuel IH]; intros item property inception H; [lia |].
  cbn [getContentProps_rec]. apply getContentProps_body_returns.
  intros i p n Hp. apply IH. lia.
Qed.

(** [getContentProps] always returns: what it throws it catches, and the
    fuel of the embedding is enough for every path. *)
Lemma getContentProps_total item property inception :
  returns (getContentProps item property inception).
Proof. apply getContentProps_rec_returns. lia. Qed.

(** ** [aContainsB] *)

Section Matcher.

Variable RegExp : string -> option (string -> bool).

Lemma aContainsB_string a q regex :
  RegExp q = Some regex ->
  aContainsB RegExp (VStr a) (VStr q) = (Val (VBool (regex a)), []).
Proof. intros E. unfold aContainsB, new_RegExp. cbn. now rewrite E. Qed.

Lemma aContainsB_syntax_error a q :
  RegExp q = None ->
  aContainsB RegExp (VStr a) (VStr q)
  = (Val VUndef, [("aContainsB", SyntaxError "Invalid regular expression")]).
Proof. intros E. unfold aContainsB, new_RegExp. cbn. now rewrite E. Qed.

Lemma aContainsB_other_shape a b :
  is_matchType (typeOf a) = false ->
  aContainsB RegExp a b = (Val (VBool false), []).
Proof. intros E. unfold aContainsB. now rewrite E. Qed.

Lemma aContainsB_returns a b : returns (aContainsB RegExp a b).
Proof.
  unfold aContainsB. apply try_catch_returns.
  destruct (is_matchType (typeOf a) && is_matchType (typeOf b));
    [| discriminate].
  apply bind_ends; [unfold new_RegExp; destruct (RegExp _); discriminate |].
  intros regex. apply bind_ends; [destruct a; discriminate |].
  intros; discriminate.
Qed.

(** ** The filter callback and [applyFilter] *)

Lemma scan_values_returns values query :
  returns (scan_values RegExp values query).
Proof.
  induction values as [| v rest IH]; cbn [scan_values];
    [apply ret_returns |].
  apply bind_returns; [apply aContainsB_returns |].
  intros r. destruct (truthy r); [apply ret_returns | exact IH].
Qed.

(** The callback always returns, and leaves the shared [values] empty. *)
Lemma filter_item_returns properties query item values :
  exists matched out,
    filter_item RegExp properties query item values
    = (Val (matched, []), out).
Proof.
  unfold filter_item.
  destruct (forEach_returns properties
              (fun prop values0 =>
                 x <- getContentProps item prop 0 ;;
                 ret (Array_concat values0 (or_else x (VArr []))))
              values) as (vs & out1 & E1).
  { intros prop vs. apply bind_returns;
      [apply getContentProps_total | intros; apply ret_returns]. }
  rewrite E1, bind_val. cbn beta.
  destruct (scan_values_returns vs query) as ([m rest] & out2 & E2).
  rewrite E2. cbn. now exists m, (out1 ++ out2 ++ []).
Qed.

Lemma Array_filter_filter_item properties query content :
  exists out,
    Array_filter content (filter_item RegExp properties query) []
    = (Val (filter (accepts RegExp properties query) content, []), out).
Proof.
  induction content as [| item content (out & IH)]; cbn [Array_filter filter].
  - now exists [].
  - unfold accepts at 1.
    destruct (filter_item_returns properties query item [])
      as (m & out1 & E).
    rewrite E, bind_val. cbn [fst snd]. rewrite IH. cbn.
    eexists. reflexivity.
Qed.

(** [applyFilter] always stores a result: the content itself, or the items
    that the callback accepts, each one judged on its own. *)
Lemma filteredContent_spec content properties query :
  filteredContent RegExp content properties query
  = Some (if filters content properties query
          then filter (accepts RegExp (normalizedProperties properties)
                         (normalizedQuery query)) content
          else content).
Proof.
  unfold filteredContent, applyFilter, filters.
  destruct (negb (length content =? 0)
            && negb (length (normalizedProperties properties) =? 0)
            && negb (Str.is_empty (normalizedQuery query)));
    [| reflexivity].
  destruct (Array_filter_filter_item (normalizedProperties properties)
              (normalizedQuery query) content) as (out & E).
  now rewrite E.
Qed.

End Matcher.

(* ================================================================== *)
(** * The specification, sentence by sentence *)

Lemma filter_idempotent {A} (f : A -> bool) (l : list A) :
  filter f (filter f l) = filter f l.
Proof.
  induction l as [| x l IH]; cbn; [reflexivity |].
  destruct (f x) eqn:E; cbn; [rewrite E; f_equal |]; exact IH.
Qed.

(** C1.  When the normalized properties are empty, or the normalized query
    is empty (in particular when [query] without its backslashes is empty),
    or the content is empty, [applyFilter] stores the content itself and
    writes nothing to the console. *)
Theorem applyFilter_identity RegExp content properties query :
  normalizedProperties properties = []
  \/ normalizedQuery query = ""
  \/ Str.replace Str.re_backslashes "" query = ""
  \/ content = [] ->
  applyFilter RegExp content properties query = (Val (Some content), []).
Proof.
  intros H. unfold applyFilter.
  assert (E : negb (length content =? 0)
              && negb (length (normalizedProperties properties) =? 0)
              && negb (Str.is_empty (normalizedQuery query)) = false).
  { destruct H as [H | [H | [H | H]]].
    - rewrite H. cbn. now rewrite andb_false_r.
    - rewrite H. apply andb_false_r.
    - unfold normalizedQuery. rewrite H.
      destruct (isPresent query); apply andb_false_r.
    - now rewrite H. }
  now rewrite E.
Qed.

Lemma applyFilter_identity_witness :
  normalizedQuery "\\" = ""
  /\ applyFilter literal_RegExp [VStr "a"; VNum 2] "name" "\\"
     = (Val (Some [VStr "a"; VNum 2]), []).
Proof.
  split; [reflexivity |]. apply applyFilter_identity. right. left. reflexivity.
Defined.

(** C3.  Filtering is idempotent: [applyFilter] always stores a result, and
    filtering that result again with the same properties and query stores
    the same result. *)
Theorem applyFilter_idempotent RegExp content properties query :
  exists once,
    filteredContent RegExp content properties query = Some once
    /\ filteredContent RegExp once properties query = Some once.
Proof.
  rewrite filteredContent_spec.
  destruct (filters content properties query) eqn:E;
    (eexists; split; [reflexivity |]); rewrite filteredContent_spec.
  - destruct (filters (filter _ _) properties query);
      [now rewrite filter_idempotent | reflexivity].
  - now rewrite E.
Qed.

(** ** The matcher *)

Lemma literal_RegExp_literal_law : literal_law literal_RegExp.
Proof.
  intros pattern H. unfold literal_RegExp. rewrite H.
  eexists. split; reflexivity.
Qed.

Lemma literal_RegExp_unterminated_law : unterminated_law literal_RegExp.
Proof. reflexivity. Qed.

(** On a literal query every engine answers as [literal_RegExp] does. *)
Lemma aContainsB_literal RegExp query a :
  literal_law RegExp -> literal query = true ->
  aContainsB RegExp a (VStr query) = aContainsB literal_RegExp a (VStr query).
Proof.
  intros Law H. destruct (Law query H) as (regex & E & Hregex).
  unfold aContainsB, new_RegExp, literal_RegExp. cbn [ToString].
  rewrite E, H.
  destruct (is_matchType (typeOf a) && is_matchType (typeOf (VStr query)));
    [| reflexivity].
  destruct a; try reflexivity. cbn. now rewrite Hregex.
Qed.

Lemma scan_values_literal RegExp query values :
  literal_law RegExp -> literal query = true ->
  scan_values RegExp values query = scan_values literal_RegExp values query.
Proof.
  intros Law H. induction values as [| v rest IH]; cbn [scan_values];
    [reflexivity |].
  rewrite (@aContainsB_literal RegExp query v Law H).
  destruct (aContainsB literal_RegExp v (VStr query)) as [[r | e |] out];
    try reflexivity.
  rewrite !bind_val. destruct (truthy r); [reflexivity | now rewrite IH].
Qed.

Lemma accepts_literal RegExp properties query item :
  literal_law RegExp -> literal query = true ->
  accepts RegExp properties query item
  = accepts literal_RegExp properties query item.
Proof.
  intros Law H. unfold accepts, filter_item.
  destruct (forEach properties _ []) as [[values | e |] out]; try reflexivity.
  rewrite !bind_val. cbn beta. now rewrite (@scan_values_literal RegExp query values Law H).
Qed.

Lemma filteredContent_literal RegExp content properties query :
  literal_law RegExp -> literal (normalizedQuery query) = true ->
  filteredContent RegExp content properties query
  = filteredContent literal_RegExp content properties query.
Proof.
  intros Law H. rewrite !filteredContent_spec.
  destruct (filters content properties query); [| reflexivity].
  f_equal. apply filter_ext. intros item. now apply accepts_literal.
Qed.

Lemma prefix_app (p s : string) : String.prefix p (p ++ s) = true.
Proof.
  induction p as [| c p IH]; cbn; [now destruct s |].
  destruct (ascii_dec c c); [exact IH | congruence].
Qed.

Lemma contains_app (before p after : string) :
  Str.contains p (before ++ p ++ after) = true.
Proof.
  induction before as [| c before IH].
  - cbn [append]. destruct (p ++ after)%string eqn:E; cbn [Str.contains];
      rewrite <- E, prefix_app; reflexivity.
  - cbn [append Str.contains]. rewrite IH. apply orb_true_r.
Qed.

(** C2, at the failing inputs.  A number or a boolean passes the test on
    [matchTypes], but has no [match] method: the call throws, the method
    logs the exception and returns [undefined], whatever the query.  So the
    number 5 is not matched by the query "5", although its string form
    contains it, and an item whose filtered property holds the number 5 is
    rejected. *)
Theorem aContainsB_number_candidate RegExp :
  (forall n q, fst (aContainsB RegExp (VNum n) (VStr q)) = Val VUndef)
  /\ (forall b q, fst (aContainsB RegExp (VBool b) (VStr q)) = Val VUndef)
  /\ aContainsB literal_RegExp (VNum 5) (VStr "5")
     = (Val VUndef, [("aContainsB", TypeError "a.match is not a function")])
  /\ Str.contains "5" (ToString (VNum 5)) = true
  /\ filteredContent literal_RegExp [VObj [("n", VNum 5)]] "n" "5" = Some [].
Proof.
  repeat split; try (vm_compute; reflexivity);
    intros x q; unfold aContainsB, new_RegExp; cbn;
    destruct (RegExp q); reflexivity.
Qed.

(** C8, as stated, fails: the query "(" occurs in the candidate "f(x)", but
    it is no valid pattern, so [aContainsB] logs a SyntaxError and returns
    [undefined], which the filter takes for "no match". *)
Lemma aContainsB_substring_not_matched :
  Str.contains "(" "f(x)" = true
  /\ aContainsB literal_RegExp (VStr "f(x)") (VStr "(")
     = (Val VUndef, [("aContainsB", SyntaxError "Invalid regular expression")])
  /\ filteredContent literal_RegExp [VObj [("call", VStr "f(x)")]] "call" "("
     = Some [].
Proof. repeat split; vm_compute; reflexivity. Qed.

(** C8, amended.  For a string candidate and a query without syntax
    characters, [aContainsB] answers whether the query occurs in the
    candidate, character for character: "Red" does not match "red", and a
    query matches wherever it occurs, with anything before and after it. *)
Theorem aContainsB_literal_query RegExp :
  literal_law RegExp ->
  aContainsB RegExp (VStr "red") (VStr "Red") = (Val (VBool false), [])
  /\ (forall candidate query, literal query = true ->
        aContainsB RegExp (VStr candidate) (VStr query)
        = (Val (VBool (Str.contains query candidate)), []))
  /\ (forall before query after, literal query = true ->
        aContainsB RegExp (VStr (before ++ query ++ after)) (VStr query)
        = (Val (VBool true), [])).
Proof.
  intros Law.
  assert (G : forall candidate query, literal query = true ->
                aContainsB RegExp (VStr candidate) (VStr query)
                = (Val (VBool (Str.contains query candidate)), [])).
  { intros candidate query H. destruct (Law query H) as (regex & E & Hregex).
    rewrite (@aContainsB_string RegExp candidate query regex E). now rewrite Hregex. }
  repeat split.
  - now rewrite G.
  - exact G.
  - intros before query after H. now rewrite G, contains_app.
Qed.

Lemma aContainsB_literal_query_witness :
  literal_law literal_RegExp
  /\ literal "ed" = true
  /\ aContainsB literal_RegExp (VStr ("r" ++ "ed" ++ "dish")) (VStr "ed")
     = (Val (VBool true), []).
Proof.
  split; [exact literal_RegExp_literal_law |]. split; [reflexivity |].
  exact (proj2 (proj2 (aContainsB_literal_query literal_RegExp_literal_law))
           "r" "ed" "dish" eq_refl).
Defined.

(** ** Paths made of clean segments *)

Lemma run_segment_join s rest :
  segment s = true -> Str.run Str.is_dot (Str.join (s :: rest)) = 0.
Proof.
  unfold segment. destruct s as [| c s]; [discriminate |]. cbn [Str.is_empty negb andb no_dot].
  intros H. apply andb_prop in H as [H _]. apply negb_true_iff in H.
  destruct rest; cbn; now rewrite H.
Qed.

Lemma re_dots_cons c t :
  Str.re_dots (String c t)
  = if Str.is_dot c then Some (S (Str.run Str.is_dot t)) else None.
Proof.
  unfold Str.re_dots, Str.at_least. cbn [Str.run].
  destruct (Str.is_dot c); reflexivity.
Qed.

Lemma split_dots_no_dot s :
  no_dot s = true -> Str.split_from Str.re_dots 0 s = [s].
Proof.
  induction s as [| c t IH]; cbn [no_dot]; intros H; [reflexivity |].
  apply andb_prop in H as [Hc Ht]. apply negb_true_iff in Hc.
  cbn [Str.split_from]. rewrite re_dots_cons, Hc, (IH Ht). reflexivity.
Qed.

Lemma split_dots_app s t :
  no_dot s = true -> Str.run Str.is_dot t = 0 ->
  Str.split_from Str.re_dots 0 (s ++ String "." t)
  = s :: Str.split_from Str.re_dots 0 t.
Proof.
  intros Hs Ht. induction s as [| c s IH].
  - cbn [append Str.split_from]. rewrite re_dots_cons.
    change (Str.is_dot ".") with true. cbn iota. rewrite Ht. reflexivity.
  - cbn [no_dot] in Hs. apply andb_prop in Hs as [Hc Hs].
    apply negb_true_iff in Hc.
    cbn [append Str.split_from]. rewrite re_dots_cons, Hc.
    now rewrite (IH Hs).
Qed.

(** Joining clean segments and splitting again gives the segments back. *)
Lemma split_join segs :
  segs <> [] -> forallb segment segs = true ->
  Str.split Str.re_dots (Str.join segs) = segs.
Proof.
  unfold Str.split. induction segs as [| s rest IH]; [congruence | intros _ H].
  cbn [forallb] in H. apply andb_prop in H as [Hs Hrest].
  assert (Hd : no_dot s = true) by (unfold segment in Hs; now apply andb_prop in Hs).
  destruct rest as [| s2 rest]; [now apply split_dots_no_dot |].
  rewrite join_cons. cbn [append].
  rewrite split_dots_app, IH; trivial; [discriminate |].
  cbn [forallb] in Hrest. apply andb_prop in Hrest as [H2 _].
  now apply run_segment_join.
Qed.

(** ** One step of [getContentProps] *)

(** Past the limit the call throws, catches, logs and returns [undefined]. *)
Lemma getContentProps_limit item property inception :
  100 < inception ->
  getContentProps item property inception = (Val VUndef, [limit_line]).
Proof.
  intros H. rewrite getContentProps_unfold. unfold getContentProps_body.
  destruct (Str.split Str.re_dots property) eqn:E;
    [now apply split_from_not_nil in E |].
  apply Nat.ltb_lt in H. now rewrite H.
Qed.

(** A last segment other than [@each]: the value found, spread when it is an
    array, [[]] when it is falsy. *)
Lemma getContentProps_last item property prop got inception :
  Str.split Str.re_dots property = [prop] -> inception <= 100 ->
  String.eqb prop "@each" = false -> Ember_get item prop = ret got ->
  getContentProps item property inception
  = (Val (VArr (Array_concat [] (or_else got (VArr [])))), []).
Proof.
  intros E Hi Hp Hg. rewrite getContentProps_unfold. unfold getContentProps_body.
  apply Nat.ltb_ge in Hi. rewrite E, Hi, Hp, Hg. reflexivity.
Qed.

(** A segment other than [@each] followed by more segments. *)
Lemma getContentProps_lookup item property prop propArr got inception x out :
  Str.split Str.re_dots property = prop :: propArr -> propArr <> [] ->
  inception <= 100 ->
  String.eqb prop "@each" = false -> Ember_get item prop = ret got ->
  getContentProps (or_else got (VArr [])) (Str.join propArr) (S inception)
  = (Val x, out) ->
  getContentProps item property inception
  = (Val (VArr (Array_concat [] x)), out).
Proof.
  intros E Hne Hi Hp Hg Hrec.
  rewrite getContentProps_unfold. unfold getContentProps_body.
  apply Nat.ltb_ge in Hi. rewrite E, Hi, Hp, Hg.
  destruct propArr as [| q propArr]; [congruence |].
  rewrite bind_ret. cbn zeta. rewrite Hrec. cbn. now rewrite !app_nil_r.
Qed.

(** [@each] on an array. *)
Lemma getContentProps_each elems property propArr inception values n out :
  Str.split Str.re_dots property = "@each" :: propArr -> inception <= 100 ->
  forEach elems (each_element getContentProps propArr) ([], inception)
  = (Val (values, n), out) ->
  getContentProps (VArr elems) property inception = (Val (VArr values), out).
Proof.
  intros E Hi Hloop.
  rewrite getContentProps_unfold. unfold getContentProps_body.
  apply Nat.ltb_ge in Hi. rewrite E, Hi. cbn [String.eqb item_forEach].
  change (String.eqb "@each" "@each") with true. cbn iota.
  rewrite bind_ret, Hloop. cbn. now rewrite !app_nil_r.
Qed.

(** ** Paths without [@each] *)

Lemma walk_not_nil item segs v : walk item segs v -> segs <> [].
Proof. intros []; discriminate. Qed.

Lemma plain_segment_segment segs :
  forallb plain_segment segs = true -> forallb segment segs = true.
Proof.
  induction segs as [| s segs IH]; cbn [forallb]; [reflexivity |].
  intros H. apply andb_prop in H as [Hs H]. unfold plain_segment in Hs.
  apply andb_prop in Hs as [Hs _]. now rewrite Hs, IH.
Qed.

(** A path of plain segments resolves to the value at its end: one value,
    the elements of an array, or nothing when that value is falsy. *)
Lemma getContentProps_walk item segs v inception :
  walk item segs v -> forallb plain_segment segs = true ->
  inception + length segs <= 101 ->
  getContentProps item (Str.join segs) inception
  = (Val (VArr (Array_concat [] (or_else v (VArr [])))), []).
Proof.
  intros W. revert inception.
  induction W as [item prop v Hg | item prop z rest v Hg W IH];
    intros inception Hsegs Hlen.
  - pose proof (plain_segment_segment _ Hsegs) as Hs.
    cbn [forallb] in Hsegs. rewrite andb_true_r in Hsegs.
    apply andb_prop in Hsegs as [_ Hp]. apply negb_true_iff in Hp.
    eapply getContentProps_last; try eassumption.
    + now apply split_join.
    + cbn in Hlen. lia.
  - pose proof (walk_not_nil W) as Hne.
    pose proof (plain_segment_segment _ Hsegs) as Hs.
    cbn [forallb] in Hsegs. apply andb_prop in Hsegs as [Hp Hrest].
    unfold plain_segment in Hp. apply andb_prop in Hp as [_ Hp].
    apply negb_true_iff in Hp. cbn [length] in Hlen.
    rewrite (@getContentProps_lookup item (Str.join (prop :: rest)) prop rest
               z inception (VArr (Array_concat [] (or_else v (VArr [])))) []);
      trivial; try lia.
    + apply split_join; [discriminate | exact Hs].
    + apply IH; [exact Hrest | lia].
Qed.



Lemma forEach_each_last self elems values inception :
  forEach elems (each_element self []) (values, inception)
  = (Val (fold_left Array_concat elems values, inception), []).
Proof.
  revert values. induction elems as [| i elems IH]; intros values;
    cbn [forEach fold_left each_element]; [reflexivity |].
  now rewrite bind_ret, IH.
Qed.

(** C5.  With the properties "tags.@each" and the query "red", the first of
    the two items resolves to its two tags and is accepted, the second
    resolves to "green" and is rejected.  A final [@each] on an array yields
    its elements in order, an element that is itself an array being
    spread. *)
Theorem applyFilter_wildcard RegExp :
  literal_law RegExp ->
  getContentProps (VObj [("tags", VArr [VStr "red"; VStr "blue"])])
    "tags.@each" 0 = (Val (VArr [VStr "red"; VStr "blue"]), [])
  /\ getContentProps (VObj [("tags", VArr [VStr "green"])])
       "tags.@each" 0 = (Val (VArr [VStr "green"]), [])
  /\ filteredContent RegExp
       [VObj [("tags", VArr [VStr "red"; VStr "blue"])];
        VObj [("tags", VArr [VStr "green"])]]
       "tags.@each" "red"
     = Some [VObj [("tags", VArr [VStr "red"; VStr "blue"])]]
  /\ (forall elems inception, inception <= 100 ->
        getContentProps (VArr elems) "@each" inception
        = (Val (VArr (fold_left Array_concat elems [])), [])).
Proof.
  intros Law. repeat split; try (vm_compute; reflexivity).
  - rewrite (@filteredContent_literal RegExp _ _ _ Law) by reflexivity.
    vm_compute. reflexivity.
  - intros elems inception Hi.
    eapply getContentProps_each; [reflexivity | exact Hi |].
    apply forEach_each_last.
Qed.

Lemma applyFilter_wildcard_witness :
  literal_law literal_RegExp
  /\ filteredContent literal_RegExp
       [VObj [("tags", VArr [VStr "red"; VStr "blue"])];
        VObj [("tags", VArr [VStr "green"])]]
       "tags.@each" "red"
     = Some [VObj [("tags", VArr [VStr "red"; VStr "blue"])]].
Proof.
  split; [exact literal_RegExp_literal_law |].
  exact (proj1 (proj2 (proj2 (applyFilter_wildcard literal_RegExp_literal_law)))).
Defined.

(** ** [@each] followed by more segments *)

(** Every element bumps the counter of the enclosing call. *)
Lemma forEach_each_more propArr elems values inception :
  propArr <> [] ->
  exists values' out,
    forEach elems (each_element getContentProps propArr) (values, inception)
    = (Val (values', inception + length elems), out).
Proof.
  intros Hne. revert values inception.
  induction elems as [| i elems IH]; intros values inception.
  - exists values, []. cbn. now rewrite Nat.add_0_r.
  - cbn [forEach each_element length].
    destruct propArr as [| q propArr]; [congruence |].
    destruct (getContentProps_total i (Str.join (q :: propArr)) (S inception))
      as (x & out1 & E1).
    destruct (IH (Array_concat values x) (S inception)) as (vs & out2 & E2).
    exists vs, (out1 ++ out2). rewrite E1. cbn [bind ret]. rewrite E2.
    cbn. now rewrite Nat.add_succ_r, app_nil_r.
Qed.

(** Once the counter has reached 100, every further element is resolved
    past the limit: one [undefined] and one line on the console each. *)
Lemma forEach_each_limit propArr elems values inception :
  propArr <> [] -> 100 <= inception ->
  forEach elems (each_element getContentProps propArr) (values, inception)
  = (Val (values ++ repeat VUndef (length elems), inception + length elems),
     repeat limit_line (length elems)).
Proof.
  intros Hne. revert values inception.
  induction elems as [| i elems IH]; intros values inception Hi.
  - cbn. now rewrite app_nil_r, Nat.add_0_r.
  - cbn [forEach each_element length repeat].
    destruct propArr as [| q propArr]; [congruence |].
    rewrite getContentProps_limit by lia. cbn [bind ret].
    rewrite IH by lia. cbn [Array_concat].
    rewrite <- app_assoc, Nat.add_succ_r. reflexivity.
Qed.

(** C10.  Under [@each] followed by more segments, the elements share the
    depth counter of the enclosing call: the element that comes after
    [before] is resolved with the counter [inception + length before + 1].
    So, from the top-level call, the elements past the hundredth are each
    resolved past the limit of 100, although they are nested two levels
    deep: each yields [undefined] and one line on the console, after the
    values and lines of the first hundred. *)
Theorem getContentProps_each_shares_counter segs :
  segs <> [] -> forallb segment segs = true ->
  (forall before x inception values out,
     inception <= 100 ->
     getContentProps (VArr before) (Str.join ("@each" :: segs)) inception
     = (Val (VArr values), out) ->
     exists y out',
       getContentProps x (Str.join segs) (S (inception + length before))
       = (Val y, out')
       /\ getContentProps (VArr (before ++ [x])) (Str.join ("@each" :: segs))
            inception
          = (Val (VArr (Array_concat values y)), out ++ out'))
  /\ (forall elems,
        exists values out,
          getContentProps (VArr (firstn 100 elems))
            (Str.join ("@each" :: segs)) 0 = (Val (VArr values), out)
          /\ getContentProps (VArr elems) (Str.join ("@each" :: segs)) 0
             = (Val (VArr (values ++ repeat VUndef (length elems - 100))),
                out ++ repeat limit_line (length elems - 100))).
Proof.
  intros Hne Hsegs.
  assert (Hsplit : Str.split Str.re_dots (Str.join ("@each" :: segs))
                   = "@each" :: segs).
  { apply split_join; [discriminate |]. cbn [forallb]. now rewrite Hsegs. }
  split.
  - intros before x inception values out Hi Hbefore.
    destruct (forEach_each_more before [] inception Hne) as (vs & o & E).
    rewrite (@getContentProps_each before _ segs inception vs _ o Hsplit Hi E)
      in Hbefore.
    injection Hbefore as -> ->.
    destruct (getContentProps_total x (Str.join segs)
                (S (inception + length before))) as (y & out' & Ey).
    exists y, out'. split; [exact Ey |].
    eapply getContentProps_each; [exact Hsplit | exact Hi |].
    rewrite forEach_app, E. cbn [bind forEach each_element].
    destruct segs as [| q segs]; [congruence |].
    rewrite Ey. cbn. now rewrite !app_nil_r.
  - intros elems.
    pose proof (firstn_skipn 100 elems) as Helems.
    pose proof (length_firstn 100 elems) as Hfirst.
    pose proof (length_skipn 100 elems) as Hrest.
    pose proof (@skipn_all2 value 100 elems) as Hall.
    set (first := firstn 100 elems) in *.
    set (rest := skipn 100 elems) in *. clearbody first rest.
    destruct (forEach_each_more first [] 0 Hne) as (vs & o & E).
    exists vs, o. split.
    + eapply getContentProps_each; [exact Hsplit | lia | exact E].
    + rewrite <- Hrest.
      destruct (Nat.le_gt_cases (length elems) 100) as [Hle | Hgt];
        (eapply getContentProps_each; [exact Hsplit | lia |]);
        rewrite <- Helems, forEach_app, E.
      * rewrite (Hall Hle). cbn. now rewrite !app_nil_r.
      * rewrite bind_val, forEach_each_limit by (trivial; lia).
        reflexivity.
Qed.

Lemma getContentProps_each_shares_counter_witness :
  ["n"] <> []
  /\ forallb segment ["n"] = true
  /\ exists values out,
       getContentProps
         (VArr (firstn 100 (repeat (VObj [("n", VStr "x")]) 103)))
         (Str.join ["@each"; "n"]) 0 = (Val (VArr values), out)
       /\ getContentProps (VArr (repeat (VObj [("n", VStr "x")]) 103))
            (Str.join ["@each"; "n"]) 0
          = (Val (VArr (values ++ repeat VUndef
                          (length (repeat (VObj [("n", VStr "x")]) 103) - 100))),
             out ++ repeat limit_line
                      (length (repeat (VObj [("n", VStr "x")]) 103) - 100)).
Proof.
  assert (Hne : ["n"] <> []) by discriminate.
  split; [exact Hne |]. split; [reflexivity |].
  exact (proj2 (@getContentProps_each_shares_counter ["n"] Hne eq_refl)
           (repeat (VObj [("n", VStr "x")]) 103)).
Defined.

(** ** The recursion limit *)

Lemma Ember_get_cases obj key :
  (exists msg, Ember_get obj key = throw (AssertionError msg))
  \/ (exists v, Ember_get obj key = ret v).
Proof.
  unfold Ember_get.
  destruct obj; try (left; eexists; reflexivity);
    destruct (Str.is_empty key); try (right; eexists; reflexivity);
    destruct (String.eqb key "length"); try (right; eexists; reflexivity);
    destruct (array_index key); right; eexists; reflexivity.
Qed.

Lemma item_forEach_cases item :
  (exists msg, item_forEach item = throw (TypeError msg))
  \/ (exists each, item_forEach item = ret each).
Proof.
  destruct item; cbn; try (left; eexists; reflexivity);
    try (right; eexists; reflexivity).
  destruct (truthy _); [left | right]; eexists; reflexivity.
Qed.

(** Within the limit a call returns an array, or [undefined] after an
    exception of its own lookup; the limit itself is never the reason. *)
Lemma getContentProps_within_limit item property inception :
  inception <= 100 ->
  (exists values out,
     getContentProps item property inception = (Val (VArr values), out))
  \/ (exists msg,
        getContentProps item property inception
        = (Val VUndef, [("getContentProps", TypeError msg)]))
  \/ (exists msg,
        getContentProps item property inception
        = (Val VUndef, [("getContentProps", AssertionError msg)])).
Proof.
  intros Hi. rewrite getContentProps_unfold. unfold getContentProps_body.
  destruct (Str.split Str.re_dots property) as [| prop propArr] eqn:E;
    [now apply split_from_not_nil in E |].
  apply Nat.ltb_ge in Hi. rewrite Hi.
  destruct (String.eqb prop "@each").
  - destruct (item_forEach_cases item) as [(msg & ->) | ([elems |] & ->)].
    + right. left. exists msg. reflexivity.
    + left. rewrite bind_ret.
      destruct propArr as [| q propArr].
      * rewrite forEach_each_last. do 2 eexists. reflexivity.
      * destruct (forEach_each_more elems [] inception
                    (propArr := q :: propArr)) as (vs & out & ->);
          [discriminate |]. do 2 eexists. reflexivity.
    + left. do 2 eexists. reflexivity.
  - destruct (Ember_get_cases item prop) as [(msg & ->) | (got & ->)].
    + right. right. exists msg. reflexivity.
    + left. rewrite bind_ret. cbn zeta.
      destruct propArr as [| q propArr]; [do 2 eexists; reflexivity |].
      destruct (getContentProps_total (or_else got (VArr []))
                  (Str.join (q :: propArr)) (S inception)) as (x & out & ->).
      do 2 eexists. reflexivity.
Qed.

(** C4, as stated, fails.  Through 102 nested arrays the path of 102 [@each]
    segments hits the limit in its innermost call only: the resolution of
    the item returns the array [[undefined]].  Through an array of 101
    objects the path "@each.n" hits the limit at the last element only:
    the resolution returns the hundred values found before it, and the item
    is accepted by the filter. *)
Lemma recursion_limit_is_not_a_failure :
  getContentProps (nest 102 (VStr "red")) (Str.join (each_path 102)) 0
  = (Val (VArr [VUndef]), [limit_line])
  /\ getContentProps (VArr (repeat (VObj [("n", VStr "red")]) 101)) "@each.n" 0
     = (Val (VArr (repeat (VStr "red") 100 ++ [VUndef])), [limit_line])
  /\ filteredContent literal_RegExp
       [VArr (repeat (VObj [("n", VStr "red")]) 101)] "@each.n" "red"
     = Some [VArr (repeat (VObj [("n", VStr "red")]) 101)].
Proof. repeat split; vm_compute; reflexivity. Qed.

(** ** Normalization *)

Lemma re_spaces_cons c t :
  Str.re_spaces (String c t)
  = if Str.is_space c then Some (S (Str.run Str.is_space t)) else None.
Proof.
  unfold Str.re_spaces, Str.at_least. cbn [Str.run].
  destruct (Str.is_space c); reflexivity.
Qed.

(** The pieces between runs of whitespace hold no whitespace. *)
Lemma split_spaces_no_space s skip :
  forallb no_space (Str.split_from Str.re_spaces skip s) = true.
Proof.
  unfold no_space.
  revert skip. induction s as [| c t IH]; intros skip; [reflexivity |].
  cbn [Str.split_from]. destruct skip as [| k]; [| apply IH].
  rewrite re_spaces_cons. destruct (Str.is_space c) eqn:Hc.
  - cbn [forallb all_chars]. apply IH.
  - specialize (IH 0). destruct (Str.split_from Str.re_spaces 0 t);
      cbn [forallb all_chars] in *; rewrite Hc; [reflexivity | exact IH].
Qed.

(** Dropping the rest of a match and searching on is searching in what
    follows the match. *)
Lemma replace_from_drop re by_ skip s :
  Str.replace_from re by_ skip s = Str.replace_from re by_ 0 (Str.drop skip s).
Proof.
  revert skip. induction s as [| c t IH]; intros [| k]; try reflexivity.
  cbn [Str.replace_from Str.drop]. apply IH.
Qed.

Lemma split_from_drop re skip s :
  Str.split_from re skip s = Str.split_from re 0 (Str.drop skip s).
Proof.
  revert skip. induction s as [| c t IH]; intros [| k]; try reflexivity.
  cbn [Str.split_from Str.drop]. apply IH.
Qed.

Lemma drop_length k s : String.length (Str.drop k s) <= String.length s.
Proof.
  revert k. induction s as [| c t IH]; intros [| k]; cbn; try lia.
  specialize (IH k). lia.
Qed.

Lemma no_double_dot_drop k s :
  no_double_dot s = true -> no_double_dot (Str.drop k s) = true.
Proof.
  revert k. induction s as [| c t IH]; intros [| k] H; trivial.
  cbn [Str.drop]. apply IH. cbn [no_double_dot] in H.
  now apply andb_prop in H.
Qed.

Lemma starts_with_dot_run s :
  starts_with_dot s = negb (Str.run Str.is_dot s =? 0).
Proof. destruct s as [| c t]; cbn; [| destruct (Str.is_dot c)]; reflexivity. Qed.

Lemma starts_with_dot_drop_run s :
  starts_with_dot (Str.drop (Str.run Str.is_dot s) s) = false.
Proof.
  induction s as [| c t IH]; [reflexivity |]. cbn [Str.run].
  destruct (Str.is_dot c) eqn:Hc; [exact IH | cbn; exact Hc].
Qed.

Lemma no_double_dot_cons c t :
  (Str.is_dot c = true -> starts_with_dot t = false) ->
  no_double_dot t = true -> no_double_dot (String c t) = true.
Proof.
  intros H Ht. cbn [no_double_dot]. rewrite Ht, andb_true_r.
  destruct (Str.is_dot c); [now rewrite H | reflexivity].
Qed.

Lemma re_periods_cons c t :
  Str.re_periods (String c t)
  = if Str.is_dot c
    then match Str.run Str.is_dot t with
         | O => None
         | S j => Some (S (S j))
         end
    else None.
Proof.
  unfold Str.re_periods, Str.at_least. cbn [Str.run].
  destruct (Str.is_dot c); [| reflexivity].
  destruct (Str.run Str.is_dot t); reflexivity.
Qed.

(** After [replace (/[\.]{2,}/g, '.')] no two periods are left in a row. *)
Lemma replace_periods_no_double_dot s :
  no_double_dot (Str.replace Str.re_periods "." s) = true.
Proof.
  unfold Str.replace.
  enough (G : forall n s, String.length s <= n ->
                no_double_dot (Str.replace_from Str.re_periods "." 0 s) = true
                /\ (starts_with_dot (Str.replace_from Str.re_periods "." 0 s)
                    = true -> starts_with_dot s = true))
    by (apply (G (String.length s)); lia).
  clear s. induction n as [| n IH]; intros [| c t] Hlen; cbn in Hlen;
    try lia; try (split; [reflexivity | discriminate]).
  cbn [Str.replace_from]. rewrite re_periods_cons.
  destruct (Str.is_dot c) eqn:Hc.
  - destruct (Str.run Str.is_dot t) as [| j] eqn:Hrun.
    + destruct (IH t ltac:(lia)) as [Hn Hs]. split; [| cbn; now rewrite Hc].
      apply no_double_dot_cons; [intros _ | exact Hn].
      destruct (starts_with_dot (Str.replace_from _ _ 0 t)) eqn:E; trivial.
      specialize (Hs eq_refl). rewrite starts_with_dot_run, Hrun in Hs.
      discriminate.
    + rewrite replace_from_drop, <- Hrun. cbn [append].
      destruct (IH (Str.drop (Str.run Str.is_dot t) t)) as [Hn Hs].
      { pose proof (drop_length (Str.run Str.is_dot t) t). lia. }
      split; [| intros _; cbn; exact Hc].
      apply no_double_dot_cons; [intros _ | exact Hn].
      destruct (starts_with_dot (Str.replace_from _ _ 0 _)) eqn:E; trivial.
      specialize (Hs eq_refl). now rewrite starts_with_dot_drop_run in Hs.
  - destruct (IH t ltac:(lia)) as [Hn Hs].
    split; [| cbn; now rewrite Hc].
    apply no_double_dot_cons; [congruence | exact Hn].
Qed.

(** Replacing matches by a space brings no two periods together. *)
Lemma replace_space_no_double_dot re s :
  no_double_dot s = true ->
  no_double_dot (Str.replace re " " s) = true.
Proof.
  unfold Str.replace.
  enough (G : forall n s, String.length s <= n -> no_double_dot s = true ->
                no_double_dot (Str.replace_from re " " 0 s) = true
                /\ (starts_with_dot (Str.replace_from re " " 0 s) = true ->
                    starts_with_dot s = true))
    by (intros H; apply (G (String.length s)); [lia | exact H]).
  clear s. induction n as [| n IH]; intros [| c t] Hlen Hs; cbn in Hlen;
    try lia; try (split; [reflexivity | discriminate]).
  cbn [no_double_dot] in Hs. apply andb_prop in Hs as [Hc Ht].
  assert (Keep : no_double_dot (String c (Str.replace_from re " " 0 t)) = true
                 /\ (starts_with_dot (String c (Str.replace_from re " " 0 t))
                     = true -> starts_with_dot (String c t) = true)).
  { destruct (IH t ltac:(lia) Ht) as [Hn Hst]. split; [| trivial].
    apply no_double_dot_cons; [intros Hd | exact Hn].
    destruct (starts_with_dot (Str.replace_from re " " 0 t)) eqn:E; trivial.
    rewrite Hd, (Hst eq_refl) in Hc. discriminate. }
  cbn [Str.replace_from]. destruct (re (String c t)) as [[| k] |]; trivial.
  rewrite replace_from_drop. cbn [append]. split; [| discriminate].
  apply no_double_dot_cons; [discriminate |].
  apply IH; [pose proof (drop_length k t); lia |].
  now apply no_double_dot_drop.
Qed.

(** The pieces of a string without two periods in a row have none. *)
Lemma split_no_double_dot re s :
  no_double_dot s = true ->
  forallb no_double_dot (Str.split re s) = true.
Proof.
  unfold Str.split.
  enough (G : forall n s, String.length s <= n -> no_double_dot s = true ->
                forallb no_double_dot (Str.split_from re 0 s) = true
                /\ (starts_with_dot (hd "" (Str.split_from re 0 s)) = true ->
                    starts_with_dot s = true))
    by (intros H; apply (G (String.length s)); [lia | exact H]).
  clear s. induction n as [| n IH]; intros [| c t] Hlen Hs; cbn in Hlen;
    try lia; try (split; [reflexivity | discriminate]).
  cbn [no_double_dot] in Hs. apply andb_prop in Hs as [Hc Ht].
  cbn [Str.split_from].
  assert (Keep : forallb no_double_dot
                   match Str.split_from re 0 t with
                   | [] => [String c ""]
                   | piece :: more => String c piece :: more
                   end = true
                 /\ (starts_with_dot
                       (hd "" match Str.split_from re 0 t with
                              | [] => [String c ""]
                              | piece :: more => String c piece :: more
                              end) = true ->
                     starts_with_dot (String c t) = true)).
  { destruct (IH t ltac:(lia) Ht) as [Hn Hst].
    destruct (Str.split_from re 0 t) as [| piece more] eqn:Esplit;
      [now apply split_from_not_nil in Esplit |].
    cbn [forallb hd] in *. apply andb_prop in Hn as [Hp Hm].
    split; [| trivial]. rewrite Hm, andb_true_r.
    apply no_double_dot_cons; [intros Hd | exact Hp].
    destruct (starts_with_dot piece) eqn:E; trivial.
    rewrite Hd, (Hst eq_refl) in Hc. discriminate. }
  destruct (re (String c t)) as [[| k] |]; trivial.
  rewrite split_from_drop. cbn [forallb hd no_double_dot].
  split; [| discriminate].
  apply IH; [pose proof (drop_length k t); lia |].
  now apply no_double_dot_drop.
Qed.

Lemma forallb_filter {A} (f g : A -> bool) (l : list A) :
  forallb g l = true -> forallb (fun x => f x && g x) (filter f l) = true.
Proof.
  induction l as [| x l IH]; cbn [forallb filter]; [reflexivity |].
  intros H. apply andb_prop in H as [Hx Hl].
  destruct (f x) eqn:Hf; cbn [forallb]; [rewrite Hf, Hx |]; now apply IH.
Qed.

Lemma forallb_and {A} (f g : A -> bool) (l : list A) :
  forallb f l = true -> forallb g l = true ->
  forallb (fun x => f x && g x) l = true.
Proof.
  induction l as [| x l IH]; cbn [forallb]; [reflexivity |].
  intros Hf Hg. apply andb_prop in Hf as [-> Hf].
  apply andb_prop in Hg as [-> Hg]. now apply IH.
Qed.

(** ** Further evaluations *)

(** A period before the whitespace is taken with it, and so is one after it
    when there was one before; a period after the whitespace alone stays. *)
Example normalizedProperties_delimiters :
  normalizedProperties "a. .b c .d  !!e..  ..f"
  = ["a"; "b"; "c"; ".d"; "e"; ".f"].
Proof. vm_compute. reflexivity. Qed.

(** A query of whitespace only is not present; backslashes are removed. *)
Example normalizedQuery_examples :
  normalizedQuery "   " = "" /\ normalizedQuery "a\b\\c" = "abc".
Proof. split; reflexivity. Qed.

(** A property that holds an array resolves to its elements even without
    [@each], since [concat] spreads it. *)
Example getContentProps_array_property :
  getContentProps (VObj [("tags", VArr [VStr "red"; VStr "blue"])]) "tags" 0
  = (Val (VArr [VStr "red"; VStr "blue"]), []).
Proof. vm_compute. reflexivity. Qed.

(** On [null] the lookup throws; the method logs and returns [undefined],
    which the filter callback replaces by [[]]. *)
Example getContentProps_null_item :
  getContentProps VNull "a.b.c" 0
  = (Val VUndef,
     [("getContentProps",
       AssertionError "Cannot call get on an undefined object")])
  /\ filteredContent literal_RegExp
       [VNull; VObj [("a", VStr "x")]] "a" "x"
     = Some [VObj [("a", VStr "x")]].
Proof. split; vm_compute; reflexivity. Qed.

(* ================================================================== *)
(** * Further properties of the code *)

(** ** Normalization, character by character *)

Lemma at_least_one_cons p c t :
  Str.at_least 1 p (String c t)
  = if p c then Some (S (Str.run p t)) else None.
Proof.
  unfold Str.at_least. cbn [Str.run]. destruct (p c); reflexivity.
Qed.

(** Replacing the runs of characters in [q] by nothing keeps exactly the
    characters outside [q]. *)
Lemma replace_runs_keep p q s :
  (forall c, q c = negb (p c)) ->
  Str.replace (Str.at_least 1 q) "" s = keep p s.
Proof.
  intros Hq. unfold Str.replace.
  enough (G : forall s skip, skip <= Str.run q s ->
                Str.replace_from (Str.at_least 1 q) "" skip s = keep p s)
    by (apply G; lia).
  clear s. induction s as [| c t IH]; intros skip Hskip; [reflexivity |].
  cbn [Str.replace_from keep]. cbn [Str.run] in Hskip.
  rewrite at_least_one_cons. specialize (Hq c).
  destruct skip as [| k].
  - destruct (q c), (p c); try discriminate; cbn [append].
    + apply IH. lia.
    + now rewrite IH by lia.
  - destruct (q c), (p c); try discriminate; try lia. apply IH. lia.
Qed.

Lemma all_chars_keep p s : all_chars p (keep p s) = true.
Proof.
  induction s as [| c t IH]; [reflexivity |]. cbn [keep].
  destruct (p c) eqn:E; [cbn [all_chars]; now rewrite E |]; exact IH.
Qed.

Lemma keep_all p s : all_chars p s = true -> keep p s = s.
Proof.
  induction s as [| c t IH]; [reflexivity |]. cbn [all_chars keep].
  intros H. apply andb_prop in H as [-> H]. now rewrite IH.
Qed.

Lemma all_chars_drop p k s :
  all_chars p s = true -> all_chars p (Str.drop k s) = true.
Proof.
  revert k. induction s as [| c t IH]; intros [| k] H; trivial.
  cbn [Str.drop]. apply IH. cbn [all_chars] in H. now apply andb_prop in H.
Qed.

Lemma all_chars_append p s1 s2 :
  all_chars p (s1 ++ s2) = all_chars p s1 && all_chars p s2.
Proof.
  induction s1 as [| c t IH]; [reflexivity |]. cbn [append all_chars].
  now rewrite IH, andb_assoc.
Qed.

Lemma all_chars_and p q s :
  all_chars p s = true -> all_chars q s = true ->
  all_chars (fun c => p c && q c) s = true.
Proof.
  induction s as [| c t IH]; [reflexivity |]. cbn [all_chars].
  intros Hp Hq. apply andb_prop in Hp as [-> Hp].
  apply andb_prop in Hq as [-> Hq]. now apply IH.
Qed.

Lemma all_chars_weaken (p q : ascii -> bool) s :
  (forall c, p c = true -> q c = true) ->
  all_chars p s = true -> all_chars q s = true.
Proof.
  intros Hpq. induction s as [| c t IH]; [reflexivity |]. cbn [all_chars].
  intros H. apply andb_prop in H as [Hc H]. now rewrite (Hpq c Hc), IH.
Qed.

(** [replace] keeps a property that the characters of the string and of the
    replacement have. *)
Lemma replace_all_chars p re by_ s :
  all_chars p s = true -> all_chars p by_ = true ->
  all_chars p (Str.replace re by_ s) = true.
Proof.
  intros Hs Hby. unfold Str.replace. generalize 0 as skip. revert Hs.
  induction s as [| c t IH]; intros Hs skip; [reflexivity |].
  cbn [all_chars] in Hs. apply andb_prop in Hs as [Hc Ht].
  cbn [Str.replace_from]. destruct skip as [| k]; [| now apply IH].
  destruct (re (String c t)) as [[| k] |];
    try (cbn [all_chars]; rewrite Hc; now apply IH).
  rewrite all_chars_append, Hby. now apply IH.
Qed.

(** So do the pieces of [split]. *)
Lemma split_all_chars p re s :
  all_chars p s = true -> forallb (all_chars p) (Str.split re s) = true.
Proof.
  unfold Str.split. generalize 0 as skip.
  induction s as [| c t IH]; intros skip Hs; [reflexivity |].
  cbn [all_chars] in Hs. apply andb_prop in Hs as [Hc Ht].
  cbn [Str.split_from]. destruct skip as [| k]; [| now apply IH].
  assert (Keep : forallb (all_chars p)
                   match Str.split_from re 0 t with
                   | [] => [String c ""]
                   | piece :: more => String c piece :: more
                   end = true).
  { specialize (IH 0 Ht). destruct (Str.split_from re 0 t);
      cbn [forallb all_chars] in *; now rewrite Hc. }
  destruct (re (String c t)) as [[| k] |]; trivial.
  cbn [forallb all_chars]. now apply IH.
Qed.

Lemma forallb_filter_keep {A} (f g : A -> bool) (l : list A) :
  forallb g l = true -> forallb g (filter f l) = true.
Proof.
  induction l as [| x l IH]; cbn [forallb filter]; [reflexivity |].
  intros H. apply andb_prop in H as [Hx Hl].
  destruct (f x); cbn [forallb]; [rewrite Hx |]; now apply IH.
Qed.

(** X1.  Every character of every normalized path is a word character,
    [@], a period or a hyphen: whatever else [properties] holds is gone. *)
Theorem normalizedProperties_path_chars properties :
  forallb (all_chars path_char) (normalizedProperties properties) = true.
Proof.
  unfold normalizedProperties.
  destruct (Str.is_empty properties); [reflexivity |].
  apply forallb_filter_keep.
  set (s := Str.replace Str.re_delimiter " " _).
  assert (Hvalid : all_chars Str.is_valid s = true).
  { unfold s. do 2 (apply replace_all_chars; [| reflexivity]).
    unfold Str.re_invalid.
    rewrite (@replace_runs_keep Str.is_valid) by reflexivity.
    apply all_chars_keep. }
  pose proof (split_all_chars Str.is_valid Str.re_spaces s Hvalid) as H1.
  pose proof (split_spaces_no_space s 0) as H2.
  unfold no_space in H2. fold (Str.split Str.re_spaces s) in H2.
  induction (Str.split Str.re_spaces s) as [| piece l IH]; [reflexivity |].
  cbn [forallb] in *. apply andb_prop in H1 as [Hp1 Hl1].
  apply andb_prop in H2 as [Hp2 Hl2]. rewrite (IH Hl1 Hl2), andb_true_r.
  unfold path_char. now apply all_chars_and.
Qed.

Lemma space_not_dot c : Str.is_space c = true -> Str.is_dot c = false.
Proof.
  intros H. unfold Str.is_dot. destruct (Ascii.eqb_spec c "."); [| reflexivity].
  subst c. discriminate.
Qed.

Lemma keep_valid_blank s :
  all_chars blank_char s = true ->
  all_chars Str.is_space (keep Str.is_valid s) = true.
Proof.
  induction s as [| c t IH]; [reflexivity |]. cbn [all_chars keep].
  intros H. apply andb_prop in H as [Hc Ht].
  unfold blank_char, path_char in Hc.
  destruct (Str.is_valid c); [| now apply IH].
  cbn [all_chars]. cbn in Hc. apply negb_true_iff, negb_false_iff in Hc.
  now rewrite Hc, IH.
Qed.

Lemma replace_periods_spaces by_ s :
  all_chars Str.is_space s = true ->
  Str.replace Str.re_periods by_ s = s.
Proof.
  unfold Str.replace. induction s as [| c t IH]; [reflexivity |].
  cbn [all_chars]. intros H. apply andb_prop in H as [Hc Ht].
  cbn [Str.replace_from]. rewrite re_periods_cons, (space_not_dot _ Hc).
  now rewrite IH.
Qed.

Lemma split_spaces_only s skip :
  all_chars Str.is_space s = true ->
  forallb Str.is_empty (Str.split_from Str.re_spaces skip s) = true.
Proof.
  revert skip. induction s as [| c t IH]; intros skip H; [reflexivity |].
  cbn [all_chars] in H. apply andb_prop in H as [Hc Ht].
  cbn [Str.split_from]. destruct skip as [| k]; [| now apply IH].
  rewrite re_spaces_cons, Hc. cbn [forallb Str.is_empty]. now apply IH.
Qed.

Lemma filter_nonempty_none l :
  forallb Str.is_empty l = true ->
  filter (fun z => negb (String.eqb z "")) l = [].
Proof.
  induction l as [| z l IH]; [reflexivity |]. cbn [forallb filter].
  intros H. apply andb_prop in H as [Hz Hl].
  destruct z; [| discriminate]. cbn. now apply IH.
Qed.

(** X2.  Properties made of whitespace and of characters outside
    [[\w@.-]] only give no path at all, and then [applyFilter] stores the
    content unfiltered, whatever the query. *)
Theorem normalizedProperties_blank properties :
  all_chars blank_char properties = true ->
  normalizedProperties properties = []
  /\ (forall RegExp content query,
        filteredContent RegExp content properties query = Some content).
Proof.
  intros H.
  assert (E : normalizedProperties properties = []).
  { unfold normalizedProperties.
    destruct (Str.is_empty properties); [reflexivity |].
    apply filter_nonempty_none, split_spaces_only.
    apply replace_all_chars; [| reflexivity].
    unfold Str.re_invalid.
    rewrite (@replace_runs_keep Str.is_valid) by reflexivity.
    rewrite replace_periods_spaces; now apply keep_valid_blank. }
  split; [exact E |]. intros RegExp content query.
  rewrite filteredContent_spec. unfold filters. rewrite E. cbn.
  now rewrite andb_false_r.
Qed.

Lemma normalizedProperties_blank_witness :
  all_chars blank_char "  #! (%) " = true
  /\ normalizedProperties "  #! (%) " = [].
Proof.
  split; [reflexivity |].
  exact (proj1 (@normalizedProperties_blank "  #! (%) " eq_refl)).
Defined.

(** ** Normalization of a list that is already normalized *)

Lemma append_empty_r (s : string) : (s ++ "")%string = s.
Proof. induction s as [| c t IH]; cbn; [reflexivity | now rewrite IH]. Qed.

Lemma path_char_inv c :
  path_char c = true -> Str.is_valid c = true /\ Str.is_space c = false.
Proof.
  unfold path_char. intros H. apply andb_prop in H as [Hv Hs].
  now apply negb_true_iff in Hs.
Qed.

Lemma tight_cons c t :
  tight (String c t) = true ->
  path_char c = true /\ tight t = true
  /\ (Str.is_dot c = true ->
      exists c' t', t = String c' t' /\ Str.is_dot c' = false).
Proof.
  cbn [tight]. intros H. apply andb_prop in H as [H Ht].
  apply andb_prop in H as [Hc Hd]. repeat split; trivial.
  intros Hdot. rewrite Hdot in Hd. cbn in Hd.
  apply andb_prop in Hd as [Hne Hnd]. destruct t as [| c' t']; [discriminate |].
  exists c', t'. split; [reflexivity |]. now apply negb_true_iff in Hnd.
Qed.

Lemma re_periods_tight c t tail :
  tight (String c t) = true ->
  Str.re_periods (String c t ++ tail)%string = None.
Proof.
  intros H. apply tight_cons in H as (_ & _ & Hd). cbn [append].
  rewrite re_periods_cons. destruct (Str.is_dot c); [| reflexivity].
  destruct (Hd eq_refl) as (c' & t' & -> & Hc'). cbn [append Str.run].
  now rewrite Hc'.
Qed.

Lemma re_delimiter_tight c t tail :
  tight (String c t) = true ->
  Str.re_delimiter (String c t ++ tail)%string = None.
Proof.
  intros H. apply tight_cons in H as (Hc & Ht & Hd).
  apply path_char_inv in Hc as [_ Hc]. cbn [append].
  unfold Str.re_delimiter. cbn [Str.run].
  destruct (Str.is_dot c) eqn:Hdot.
  - destruct (Hd eq_refl) as (c' & t' & -> & Hc').
    apply tight_cons in Ht as (Hp & _ & _).
    apply path_char_inv in Hp as [_ Hp].
    cbn [append Str.run Str.drop]. rewrite Hc'. cbn [Str.drop].
    now rewrite Hp.
  - cbn [Str.drop]. now rewrite Hc.
Qed.

Lemma re_spaces_tight c t tail :
  tight (String c t) = true ->
  Str.re_spaces (String c t ++ tail)%string = None.
Proof.
  intros H. apply tight_cons in H as (Hc & _ & _).
  apply path_char_inv in Hc as [_ Hc]. cbn [append].
  now rewrite re_spaces_cons, Hc.
Qed.

(** A regular expression that matches nowhere in a tight path leaves it in
    place. *)
Lemma replace_from_tight re by_ p tail :
  (forall c t, tight (String c t) = true -> re (String c t ++ tail)%string = None) ->
  tight p = true ->
  Str.replace_from re by_ 0 (p ++ tail)%string
  = (p ++ Str.replace_from re by_ 0 tail)%string.
Proof.
  intros Hre. induction p as [| c t IH]; intros Hp; [reflexivity |].
  pose proof (Hre c t Hp) as E. apply tight_cons in Hp as (_ & Ht & _).
  cbn [append] in *. cbn [Str.replace_from]. now rewrite E, IH.
Qed.

Lemma split_from_tight p tail :
  tight p = true ->
  Str.split_from Str.re_spaces 0 (p ++ tail)%string
  = match Str.split_from Str.re_spaces 0 tail with
    | piece :: more => (p ++ piece)%string :: more
    | [] => [p]
    end.
Proof.
  induction p as [| c t IH]; intros Hp.
  - cbn [append].
    destruct (Str.split_from Str.re_spaces 0 tail) eqn:E;
      [now apply split_from_not_nil in E | reflexivity].
  - pose proof (re_spaces_tight c t tail Hp) as E.
    apply tight_cons in Hp as (_ & Ht & _).
    cbn [append] in *. cbn [Str.split_from]. rewrite E, (IH Ht).
    destruct (Str.split_from Str.re_spaces 0 tail) eqn:E';
      [now apply split_from_not_nil in E' | reflexivity].
Qed.

Lemma concat_space_cons p q l :
  String.concat " " (p :: q :: l)
  = (p ++ String " " (String.concat " " (q :: l)))%string.
Proof. reflexivity. Qed.

Lemma replace_concat_tight re by_ paths :
  (forall c t tail,
     tight (String c t) = true -> re (String c t ++ tail)%string = None) ->
  (forall rest,
     Str.replace_from re by_ 0 (String " " rest)
     = String " " (Str.replace_from re by_ 0 rest)) ->
  forallb tight_path paths = true ->
  Str.replace re by_ (String.concat " " paths) = String.concat " " paths.
Proof.
  intros Hre Hsp. unfold Str.replace.
  induction paths as [| p [| q l] IH]; intros H; [reflexivity | |].
  - cbn [forallb] in H. apply andb_prop in H as [Hp _].
    unfold tight_path in Hp. apply andb_prop in Hp as [_ Hp].
    cbn [String.concat]. rewrite <- (append_empty_r p) at 1.
    rewrite replace_from_tight by auto. apply append_empty_r.
  - remember (q :: l) as rest. cbn [forallb] in H.
    apply andb_prop in H as [Hp Hrest].
    unfold tight_path in Hp. apply andb_prop in Hp as [_ Hp].
    subst rest. rewrite concat_space_cons.
    rewrite replace_from_tight, Hsp, IH by auto. reflexivity.
Qed.

Lemma tight_path_starts p rest :
  tight_path p = true ->
  Str.run Str.is_space (String.concat " " (p :: rest)) = 0.
Proof.
  unfold tight_path. destruct p as [| c t]; [discriminate |]. intros H.
  cbn [Str.is_empty negb andb] in H.
  apply tight_cons in H as (Hc & _ & _). apply path_char_inv in Hc as [_ Hc].
  destruct rest; cbn; now rewrite Hc.
Qed.

Lemma split_concat_tight paths :
  paths <> [] -> forallb tight_path paths = true ->
  Str.split Str.re_spaces (String.concat " " paths) = paths.
Proof.
  unfold Str.split.
  induction paths as [| p [| q l] IH]; intros Hne H; [congruence | |].
  - cbn [forallb] in H. apply andb_prop in H as [Hp _].
    unfold tight_path in Hp. apply andb_prop in Hp as [_ Hp].
    cbn [String.concat]. rewrite <- (append_empty_r p) at 1.
    rewrite split_from_tight by exact Hp. cbn. now rewrite append_empty_r.
  - remember (q :: l) as rest. cbn [forallb] in H.
    apply andb_prop in H as [Hp Hrest]. pose proof Hp as Hp'.
    unfold tight_path in Hp. apply andb_prop in Hp as [_ Hp].
    subst rest. rewrite concat_space_cons, split_from_tight by exact Hp.
    cbn [Str.split_from]. rewrite re_spaces_cons.
    change (Str.is_space " ") with true. cbn iota.
    cbn [forallb] in Hrest. apply andb_prop in Hrest as [Hq Hl].
    rewrite (@tight_path_starts q l Hq).
    rewrite IH; [now rewrite append_empty_r | discriminate |].
    cbn [forallb]. now rewrite Hq, Hl.
Qed.

Lemma tight_valid p : tight p = true -> all_chars Str.is_valid p = true.
Proof.
  induction p as [| c t IH]; [reflexivity |]. intros H.
  apply tight_cons in H as (Hc & Ht & _). apply path_char_inv in Hc as [Hc _].
  cbn [all_chars]. now rewrite Hc, IH.
Qed.

Lemma concat_tight_valid paths :
  forallb tight_path paths = true ->
  all_chars Str.is_valid (String.concat " " paths) = true.
Proof.
  induction paths as [| p [| q l] IH]; intros H; [reflexivity | |].
  - cbn [forallb] in H. apply andb_prop in H as [Hp _].
    unfold tight_path in Hp. apply andb_prop in Hp as [_ Hp].
    now apply tight_valid.
  - remember (q :: l) as rest. cbn [forallb] in H.
    apply andb_prop in H as [Hp Hrest].
    unfold tight_path in Hp. apply andb_prop in Hp as [_ Hp].
    subst rest. rewrite concat_space_cons, all_chars_append.
    rewrite (@tight_valid p Hp). cbn [all_chars andb].
    change (Str.is_valid " ") with true. now apply IH.
Qed.

Lemma filter_nonempty_all paths :
  forallb tight_path paths = true ->
  filter (fun z => negb (String.eqb z "")) paths = paths.
Proof.
  induction paths as [| p l IH]; [reflexivity |]. cbn [forallb filter].
  intros H. apply andb_prop in H as [Hp Hl].
  unfold tight_path in Hp. destruct p; [discriminate |]. cbn.
  now rewrite IH.
Qed.

(** X3.  Normalization is the identity on what it produces in the regular
    case: a list of paths (each not empty, made of path characters, every
    period followed by another character that is no period), written with
    single spaces between them, normalizes to that list. *)
Theorem normalizedProperties_round_trip paths :
  forallb tight_path paths = true ->
  normalizedProperties (String.concat " " paths) = paths.
Proof.
  intros H. destruct paths as [| p l]; [reflexivity |].
  unfold normalizedProperties.
  assert (Hne : Str.is_empty (String.concat " " (p :: l)) = false).
  { cbn [forallb] in H. apply andb_prop in H as [Hp _].
    unfold tight_path in Hp. destruct p; [discriminate |].
    now destruct l. }
  rewrite Hne. unfold Str.re_invalid.
  rewrite (@replace_runs_keep Str.is_valid) by reflexivity.
  rewrite keep_all by now apply concat_tight_valid.
  rewrite (replace_concat_tight Str.re_periods); trivial.
  - rewrite (replace_concat_tight Str.re_delimiter); trivial.
    + rewrite split_concat_tight by (trivial; discriminate).
      now apply filter_nonempty_all.
    + intros c t tail. apply re_delimiter_tight.
  - intros c t tail. apply re_periods_tight.
Qed.

Lemma normalizedProperties_round_trip_witness :
  forallb tight_path ["user.first-name"; "tags.@each"; "id"] = true
  /\ normalizedProperties
       (String.concat " " ["user.first-name"; "tags.@each"; "id"])
     = ["user.first-name"; "tags.@each"; "id"].
Proof.
  split; [reflexivity |].
  exact (@normalizedProperties_round_trip
           ["user.first-name"; "tags.@each"; "id"] eq_refl).
Defined.

(** X4.  [normalizedQuery] is the query without its backslashes, or the
    empty string when the query holds whitespace only; the result has no
    backslash, and a query that has none and is not blank is unchanged. *)
Theorem normalizedQuery_no_backslash query :
  normalizedQuery query
  = (if isPresent query then keep not_backslash query else "")
  /\ all_chars not_backslash (normalizedQuery query) = true
  /\ (isPresent query = true -> all_chars not_backslash query = true ->
      normalizedQuery query = query).
Proof.
  assert (E : normalizedQuery query
              = if isPresent query then keep not_backslash query else "").
  { unfold normalizedQuery, Str.re_backslashes.
    rewrite (@replace_runs_keep not_backslash Str.is_backslash);
      [reflexivity |].
    intros c. unfold not_backslash. now rewrite negb_involutive. }
  split; [exact E |]. split.
  - rewrite E. destruct (isPresent query); [apply all_chars_keep | reflexivity].
  - intros Hp Hq. rewrite E, Hp. now apply keep_all.
Qed.

Lemma normalizedQuery_no_backslash_witness :
  isPresent "red car" = true
  /\ all_chars not_backslash "red car" = true
  /\ normalizedQuery "red car" = "red car".
Proof.
  split; [reflexivity |]. split; [reflexivity |].
  exact (proj2 (proj2 (normalizedQuery_no_backslash "red car"))
           eq_refl eq_refl).
Defined.

(** ** The matcher, case by case *)

(** X5.  [aContainsB] returns a boolean and writes nothing, or returns
    [undefined] after writing exactly one line of its own. *)
Theorem aContainsB_outcome RegExp a b :
  (exists matched, aContainsB RegExp a b = (Val (VBool matched), []))
  \/ (exists e, aContainsB RegExp a b = (Val VUndef, [("aContainsB", e)])).
Proof.
  unfold aContainsB, new_RegExp.
  destruct (is_matchType (typeOf a) && is_matchType (typeOf b));
    [| left; eexists; reflexivity].
  destruct (RegExp (ToString b)) as [regex |];
    [| right; eexists; reflexivity].
  destruct a; try (right; eexists; reflexivity).
  left. eexists. reflexivity.
Qed.

(** X6.  On a string candidate and a query that is a boolean, a number or
    a string, [aContainsB] returns [true] exactly when the query, as
    written, compiles and the compiled expression matches somewhere in the
    candidate. *)
Theorem aContainsB_string_candidate RegExp a b :
  is_matchType (typeOf b) = true ->
  (fst (aContainsB RegExp (VStr a) b) = Val (VBool true)
   <-> exists regex, RegExp (ToString b) = Some regex /\ regex a = true).
Proof.
  intros Hb. unfold aContainsB, new_RegExp. rewrite Hb.
  cbn [typeOf is_matchType matchTypes existsb String.eqb andb].
  change (is_matchType "string") with true. cbn [andb].
  destruct (RegExp (ToString b)) as [regex |]; cbn.
  - split.
    + intros H. exists regex. split; [reflexivity |]. congruence.
    + intros (r & E & Hr). injection E as <-. now rewrite Hr.
  - split; [discriminate | intros (r & E & _); discriminate].
Qed.

Lemma aContainsB_string_candidate_witness :
  is_matchType (typeOf (VStr "ed")) = true
  /\ fst (aContainsB literal_RegExp (VStr "red") (VStr "ed")) = Val (VBool true).
Proof.
  split; [reflexivity |].
  apply (proj2 (@aContainsB_string_candidate literal_RegExp "red" (VStr "ed")
                  eq_refl)).
  exists (Str.contains "ed"). split; reflexivity.
Defined.

(** X7.  When the candidate or the query is [undefined], [null], an array or
    an object, [aContainsB] returns [false] without compiling the query:
    nothing is thrown and nothing written, even for an invalid pattern. *)
Theorem aContainsB_unmatched_types RegExp a b :
  is_matchType (typeOf a) = false \/ is_matchType (typeOf b) = false ->
  aContainsB RegExp a b = (Val (VBool false), []).
Proof.
  intros [H | H]; unfold aContainsB; rewrite H;
    [| rewrite andb_false_r]; reflexivity.
Qed.

Lemma aContainsB_unmatched_types_witness :
  is_matchType (typeOf (VArr [VStr "("])) = false
  /\ aContainsB literal_RegExp (VArr [VStr "("]) (VStr "(")
     = (Val (VBool false), []).
Proof.
  split; [reflexivity |].
  exact (@aContainsB_unmatched_types literal_RegExp (VArr [VStr "("])
           (VStr "(") (or_introl eq_refl)).
Defined.

(** ** The filter as a whole *)

Lemma scan_values_existsb RegExp values query :
  exists rest out,
    scan_values RegExp values query
    = (Val (existsb (matches RegExp query) values, rest), out).
Proof.
  induction values as [| v values (rest & out & IH)]; cbn [scan_values existsb].
  - now exists [], [].
  - unfold matches at 1.
    destruct (aContainsB_returns RegExp v (VStr query)) as (r & out1 & E).
    rewrite E, bind_val. change (returned (Val r, out1)) with r.
    cbn [fst snd]. destruct (truthy r).
    + exists values, (out1 ++ []). reflexivity.
    + rewrite IH. exists rest, (out1 ++ out). reflexivity.
Qed.

Lemma forEach_resolved item properties values :
  exists out,
    forEach properties
      (fun prop values0 =>
         x <- getContentProps item prop 0 ;;
         ret (Array_concat values0 (or_else x (VArr []))))
      values
    = (Val (fold_left
              (fun values0 prop =>
                 Array_concat values0
                   (or_else (returned (getContentProps item prop 0)) (VArr [])))
              properties values), out).
Proof.
  revert values. induction properties as [| prop properties IH];
    intros values; cbn [forEach fold_left].
  - now exists [].
  - destruct (getContentProps_total item prop 0) as (x & out1 & E).
    rewrite E, bind_val. cbn [fst snd ret]. rewrite bind_val.
    change (returned (Val x, out1)) with x.
    destruct (IH (Array_concat values (or_else x (VArr [])))) as (out2 & ->).
    eexists. reflexivity.
Qed.

(** X9.  The callback accepts an item exactly when one of the values that
    its paths resolve to matches the query. *)
Theorem accepts_some_value RegExp properties query item :
  accepts RegExp properties query item
  = existsb (matches RegExp query) (resolved properties item).
Proof.
  unfold accepts, filter_item, resolved.
  destruct (forEach_resolved item properties []) as (out1 & ->).
  rewrite bind_val. cbn [fst].
  destruct (scan_values_existsb RegExp
              (fold_left
                 (fun values0 prop =>
                    Array_concat values0
                      (or_else (returned (getContentProps item prop 0))
                         (VArr [])))
                 properties []) query) as (rest & out2 & ->).
  reflexivity.
Qed.

Lemma matches_invalid_query RegExp query v :
  RegExp query = None -> matches RegExp query v = false.
Proof.
  intros E. unfold matches, returned, aContainsB, new_RegExp.
  cbn [ToString]. rewrite E.
  destruct (is_matchType (typeOf v) && is_matchType (typeOf (VStr query)));
    reflexivity.
Qed.

Lemma existsb_none {A} (f : A -> bool) (l : list A) :
  (forall x, f x = false) -> existsb f l = false.
Proof.
  intros H. induction l as [| x l IH]; [reflexivity |]. cbn.
  now rewrite H, IH.
Qed.

Lemma filter_none {A} (f : A -> bool) (l : list A) :
  (forall x, f x = false) -> filter f l = [].
Proof.
  intros H. induction l as [| x l IH]; [reflexivity |]. cbn.
  now rewrite H.
Qed.

(** X8.  When the normalized query is no valid pattern, every [aContainsB]
    call ends in its [catch]: a filtering pass rejects every item. *)
Theorem applyFilter_invalid_query RegExp content properties query :
  RegExp (normalizedQuery query) = None ->
  filters content properties query = true ->
  filteredContent RegExp content properties query = Some [].
Proof.
  intros E Hf. rewrite filteredContent_spec, Hf. f_equal.
  apply filter_none. intros item.
  unfold accepts, filter_item.
  destruct (forEach_resolved item (normalizedProperties properties) [])
    as (out1 & ->).
  rewrite bind_val. cbn [fst].
  destruct (scan_values_existsb RegExp
              (fold_left
                 (fun values0 prop =>
                    Array_concat values0
                      (or_else (returned (getContentProps item prop 0))
                         (VArr [])))
                 (normalizedProperties properties) [])
              (normalizedQuery query)) as (rest & out2 & ->).
  cbn. apply existsb_none. intros v. now apply matches_invalid_query.
Qed.

Lemma applyFilter_invalid_query_witness :
  literal_RegExp (normalizedQuery "f(") = None
  /\ filters [VObj [("call", VStr "f(x)")]] "call" "f(" = true
  /\ filteredContent literal_RegExp [VObj [("call", VStr "f(x)")]] "call" "f("
     = Some [].
Proof.
  split; [reflexivity |]. split; [reflexivity |].
  exact (@applyFilter_invalid_query literal_RegExp
           [VObj [("call", VStr "f(x)")]] "call" "f(" eq_refl eq_refl).
Defined.

(** One filtering pass is [filter] with the verdict of the pass. *)
Lemma filteredContent_verdict RegExp content properties query :
  filteredContent RegExp content properties query
  = Some (filter (verdict RegExp properties query) content).
Proof.
  rewrite filteredContent_spec. f_equal. unfold filters, verdict.
  destruct content as [| item content]; [reflexivity |].
  cbn [length Nat.eqb negb andb].
  destruct (negb (length (normalizedProperties properties) =? 0)
            && negb (Str.is_empty (normalizedQuery query)));
    [reflexivity |].
  symmetry. apply forallb_filter_id. apply forallb_forall. reflexivity.
Qed.

Lemma filter_comm {A} (f g : A -> bool) (l : list A) :
  filter f (filter g l) = filter g (filter f l).
Proof.
  induction l as [| x l IH]; [reflexivity |]. cbn [filter].
  destruct (f x) eqn:Ef, (g x) eqn:Eg; cbn [filter];
    rewrite ?Ef, ?Eg, IH; reflexivity.
Qed.

(** X10.  Filtering a concatenation is concatenating the filtered parts:
    the verdict on an item does not depend on the items around it. *)
Theorem applyFilter_append RegExp content1 content2 properties query :
  exists kept1 kept2,
    filteredContent RegExp content1 properties query = Some kept1
    /\ filteredContent RegExp content2 properties query = Some kept2
    /\ filteredContent RegExp (content1 ++ content2) properties query
       = Some (kept1 ++ kept2).
Proof.
  rewrite !filteredContent_verdict. do 2 eexists.
  split; [reflexivity |]. split; [reflexivity |].
  now rewrite filter_app.
Qed.

(** X11.  Two filtering passes commute: filtering the result of one pass by
    other properties and another query gives the same items as the two
    passes in the other order. *)
Theorem applyFilter_commute RegExp content properties1 query1
  properties2 query2 :
  exists first1 first2 both,
    filteredContent RegExp content properties1 query1 = Some first1
    /\ filteredContent RegExp first1 properties2 query2 = Some both
    /\ filteredContent RegExp content properties2 query2 = Some first2
    /\ filteredContent RegExp first2 properties1 query1 = Some both.
Proof.
  do 3 eexists. rewrite !filteredContent_verdict.
  split; [reflexivity |]. split; [reflexivity |]. split; [reflexivity |].
  now rewrite filter_comm.
Qed.

(** ** The segments of a path *)

Lemma split_dots_pieces_no_dot s skip :
  forallb no_dot (Str.split_from Str.re_dots skip s) = true.
Proof.
  revert skip. induction s as [| c t IH]; intros skip; [reflexivity |].
  cbn [Str.split_from]. destruct skip as [| k]; [| apply IH].
  rewrite re_dots_cons. destruct (Str.is_dot c) eqn:Hc.
  - cbn [forallb no_dot]. apply IH.
  - specialize (IH 0).
    destruct (Str.split_from Str.re_dots 0 t) as [| piece more] eqn:E;
      [now apply split_from_not_nil in E |].
    cbn [forallb no_dot] in *. now rewrite Hc.
Qed.

Lemma split_dots_inner_nonempty s :
  all_but_last_nonempty (tl (Str.split_from Str.re_dots 0 s)) = true.
Proof.
  enough (G : forall n s, String.length s <= n ->
                all_but_last_nonempty (tl (Str.split_from Str.re_dots 0 s))
                = true
                /\ (starts_with_dot s = false ->
                    all_but_last_nonempty (Str.split_from Str.re_dots 0 s)
                    = true))
    by (apply (G (String.length s)); lia).
  clear s. induction n as [| n IH]; intros [| c t] Hlen; cbn in Hlen;
    try lia; try (split; reflexivity).
  cbn [Str.split_from]. rewrite re_dots_cons.
  destruct (Str.is_dot c) eqn:Hc.
  - rewrite split_from_drop. cbn [tl]. split.
    + apply IH; [pose proof (drop_length (Str.run Str.is_dot t) t); lia |].
      apply starts_with_dot_drop_run.
    + cbn. congruence.
  - destruct (IH t ltac:(lia)) as [Htl _].
    destruct (Str.split_from Str.re_dots 0 t) as [| piece more] eqn:E;
      [now apply split_from_not_nil in E |].
    cbn [tl] in *. split; [exact Htl | intros _].
    cbn [all_but_last_nonempty]. destruct more; [reflexivity |].
    cbn [Str.is_empty negb andb]. exact Htl.
Qed.

Lemma no_dot_run s : no_dot s = true -> Str.run Str.is_dot s = 0.
Proof.
  destruct s as [| c t]; [reflexivity |]. cbn [no_dot Str.run].
  intros H. apply andb_prop in H as [Hc _]. apply negb_true_iff in Hc.
  now rewrite Hc.
Qed.

Lemma run_join s rest :
  no_dot s = true -> all_but_last_nonempty (s :: rest) = true ->
  Str.run Str.is_dot (Str.join (s :: rest)) = 0.
Proof.
  intros Hs Hne. destruct rest as [| s2 rest]; [now apply no_dot_run |].
  cbn [all_but_last_nonempty] in Hne. apply andb_prop in Hne as [Hne _].
  destruct s as [| c t]; [discriminate |]. rewrite join_cons.
  cbn [append Str.run]. cbn [no_dot] in Hs. apply andb_prop in Hs as [Hc _].
  apply negb_true_iff in Hc. now rewrite Hc.
Qed.

(** Segments without periods, none empty but perhaps the last, are what
    [split] gives back after [join]. *)
Lemma split_join_pieces l :
  l <> [] -> forallb no_dot l = true -> all_but_last_nonempty l = true ->
  Str.split Str.re_dots (Str.join l) = l.
Proof.
  unfold Str.split. induction l as [| s rest IH]; [congruence |].
  intros _ Hd Hne. cbn [forallb] in Hd. apply andb_prop in Hd as [Hs Hrest].
  destruct rest as [| s2 rest]; [now apply split_dots_no_dot |].
  assert (Hne2 : all_but_last_nonempty (s2 :: rest) = true).
  { cbn [all_but_last_nonempty] in Hne. now apply andb_prop in Hne. }
  rewrite join_cons. cbn [append].
  rewrite split_dots_app, IH; trivial; [discriminate |].
  cbn [forallb] in Hrest. apply andb_prop in Hrest as [Hs2 _].
  now apply run_join.
Qed.

Lemma split_join_tail property prop propArr :
  Str.split Str.re_dots property = prop :: propArr -> propArr <> [] ->
  Str.split Str.re_dots (Str.join propArr) = propArr.
Proof.
  intros E Hne. apply split_join_pieces; [exact Hne | |].
  - pose proof (split_dots_pieces_no_dot property 0) as H.
    fold (Str.split Str.re_dots property) in H. rewrite E in H.
    cbn [forallb] in H. now apply andb_prop in H.
  - pose proof (split_dots_inner_nonempty property) as H.
    fold (Str.split Str.re_dots property) in H. now rewrite E in H.
Qed.

(** X12.  The path that a call hands to the next one, the remaining
    segments joined by periods, splits into these same segments again:
    joining and splitting at every level loses nothing. *)
Theorem split_join_remaining property prop propArr :
  Str.split Str.re_dots property = prop :: propArr -> propArr <> [] ->
  Str.split Str.re_dots (Str.join propArr) = propArr.
Proof.
  intros E Hne.
  pose proof (split_dots_pieces_no_dot property 0) as Hd.
  pose proof (split_dots_inner_nonempty property) as Hi.
  fold (Str.split Str.re_dots property) in Hd, Hi. rewrite E in Hd, Hi.
  cbn [forallb tl] in Hd, Hi. apply andb_prop in Hd as [_ Hd].
  now apply split_join_pieces.
Qed.

Lemma split_join_remaining_witness :
  Str.split Str.re_dots ".a..b...c." = [""; "a"; "b"; "c"; ""]
  /\ ["a"; "b"; "c"; ""] <> []
  /\ Str.split Str.re_dots (Str.join ["a"; "b"; "c"; ""]) = ["a"; "b"; "c"; ""].
Proof.
  assert (Hne : ["a"; "b"; "c"; ""] <> []) by discriminate.
  split; [reflexivity |]. split; [exact Hne |].
  exact (@split_join_remaining ".a..b...c." "" ["a"; "b"; "c"; ""]
           eq_refl Hne).
Defined.

(** X13.  [getContentProps] on a path is the resolver on the segments of
    the path: splitting once, before the walk, gives the same values and
    the same console lines as splitting at every level. *)
Theorem getContentProps_by_segments property item inception :
  getContentProps item property inception
  = getContentProps_segments (Str.split Str.re_dots property) item inception.
Proof.
  remember (String.length property) as n eqn:Hn.
  assert (Hlen : String.length property <= n) by lia. clear Hn.
  revert property item inception Hlen.
  induction n as [| n IH]; intros property item inception Hlen.
  - destruct property; [| cbn in Hlen; lia]. reflexivity.
  - rewrite getContentProps_unfold. unfold getContentProps_body.
    destruct (Str.split Str.re_dots property) as [| prop propArr] eqn:E;
      [reflexivity |].
    cbn [getContentProps_segments].
    destruct propArr as [| q propArr]; [reflexivity |].
    assert (Hrec : forall i k,
               getContentProps i (Str.join (q :: propArr)) k
               = getContentProps_segments (q :: propArr) i k).
    { intros i k. rewrite IH.
      - now rewrite (@split_join_tail property prop (q :: propArr) E)
          by discriminate.
      - pose proof (@split_join_shorter property prop (q :: propArr) E) as L.
        specialize (L ltac:(discriminate)). lia. }
    destruct (100 <? inception); [reflexivity |].
    destruct (String.eqb prop "@each").
    + destruct (item_forEach item) as [[[elems |] | e |] out]; try reflexivity.
      rewrite !(bind_val (Some elems)). cbn beta iota.
      rewrite (forEach_ext elems
                 (each_element getContentProps (q :: propArr))
                 (each_element
                    (fun i _ k => getContentProps_segments (q :: propArr) i k)
                    (q :: propArr))); [reflexivity |].
      intros x [values k] _. cbn [each_element]. now rewrite Hrec.
    + destruct (Ember_get item prop) as [[got | e |] out]; try reflexivity.
      rewrite !(bind_val got). cbn beta iota zeta. now rewrite Hrec.
Qed.

(** ** Paths of plain segments *)

Lemma getContentProps_walk_values item segs v inception :
  walk item segs v -> forallb plain_segment segs = true ->
  inception + length segs <= 101 ->
  getContentProps item (Str.join segs) inception
  = (Val (VArr (values_of v)), []).
Proof.
  intros W Hsegs Hlen.
  rewrite (@getContentProps_walk item segs v inception W Hsegs Hlen).
  unfold values_of, or_else, Array_concat.
  destruct v as [| | [] | n | s | elems | fields]; cbn; try reflexivity.
  - now destruct (Z.eqb n 0).
  - now destruct (String.eqb s "").
Qed.

(** X14.  A path of plain segments, within the limit, resolves to the value
    at its end: a truthy value that is no array as the one element, an
    array as its elements (spread by [concat]), a falsy value as nothing;
    nothing is written to the console. *)
Theorem getContentProps_plain_path item segs v inception :
  walk item segs v -> forallb plain_segment segs = true ->
  inception + length segs <= 101 ->
  getContentProps item (Str.join segs) inception
  = (Val (VArr (values_of v)), []).
Proof.
  intros W Hsegs Hlen.
  rewrite (@getContentProps_walk item segs v inception W Hsegs Hlen).
  f_equal. f_equal. f_equal. unfold values_of, or_else.
  destruct v as [| | [] | n | s | elems | fields]; cbn; try reflexivity.
  - now destruct (Z.eqb n 0).
  - now destruct (String.eqb s "").
Qed.

Lemma getContentProps_plain_path_witness :
  walk (VObj [("user", VObj [("name", VStr "Ann")])]) ["user"; "name"]
    (VStr "Ann")
  /\ getContentProps (VObj [("user", VObj [("name", VStr "Ann")])])
       (Str.join ["user"; "name"]) 0
     = (Val (VArr (values_of (VStr "Ann"))), []).
Proof.
  assert (W : walk (VObj [("user", VObj [("name", VStr "Ann")])])
                ["user"; "name"] (VStr "Ann")).
  { eapply walk_step; [reflexivity |]. apply walk_last. reflexivity. }
  assert (L : 0 + length ["user"; "name"] <= 101) by (cbn; lia).
  split; [exact W |].
  exact (@getContentProps_plain_path _ _ _ 0 W eq_refl L).
Defined.

Lemma Ember_get_defined obj key :
  obj <> VUndef -> obj <> VNull -> exists got, Ember_get obj key = ret got.
Proof.
  intros H1 H2. destruct (Ember_get_cases obj key) as [(msg & E) | H];
    [| exact H].
  destruct obj; try congruence; unfold Ember_get in E;
    destruct (Str.is_empty key); try discriminate;
    destruct (String.eqb key "length"); try discriminate;
    destruct (array_index key); discriminate.
Qed.

Lemma or_else_array_defined got :
  or_else got (VArr []) <> VUndef /\ or_else got (VArr []) <> VNull.
Proof.
  unfold or_else. destruct got as [| | [] | n | s | |]; cbn;
    try (split; discriminate).
  - destruct (Z.eqb n 0); split; discriminate.
  - destruct (String.eqb s ""); split; discriminate.
Qed.

(** X15.  The limit counts the segments of the path, not the depth of the
    data: on a path of 102 or more plain segments the walk goes on through
    missing properties (each replaced by [[]]) until the counter passes
    100, so every item that is neither [undefined] nor [null] resolves to
    the one value [undefined], with one line on the console. *)
Theorem getContentProps_long_path item segs inception :
  forallb plain_segment segs = true ->
  item <> VUndef -> item <> VNull ->
  inception <= 100 -> 102 <= inception + length segs ->
  getContentProps item (Str.join segs) inception
  = (Val (VArr [VUndef]), [limit_line]).
Proof.
  revert item inception.
  induction segs as [| prop rest IH]; intros item inception Hsegs H1 H2 Hi Hlen;
    [cbn in Hlen; lia |].
  destruct rest as [| q rest]; [cbn in Hlen; lia |].
  pose proof (plain_segment_segment _ Hsegs) as Hs.
  cbn [forallb] in Hsegs. apply andb_prop in Hsegs as [Hp Hrest].
  unfold plain_segment in Hp. apply andb_prop in Hp as [_ Hp].
  apply negb_true_iff in Hp.
  destruct (Ember_get_defined prop H1 H2) as (got & Hg).
  destruct (or_else_array_defined got) as [Hz1 Hz2].
  assert (Hsplit : Str.split Str.re_dots (Str.join (prop :: q :: rest))
                   = prop :: q :: rest)
    by (apply split_join; [discriminate | exact Hs]).
  destruct (Nat.eq_dec inception 100) as [-> | Hne].
  - rewrite (@getContentProps_lookup item _ prop (q :: rest) got 100
               VUndef [limit_line]); trivial; [discriminate |].
    apply getContentProps_limit. lia.
  - rewrite (@getContentProps_lookup item _ prop (q :: rest) got inception
               (VArr [VUndef]) [limit_line]); trivial; [discriminate |].
    apply IH; trivial; cbn [length] in *; lia.
Qed.

Lemma getContentProps_long_path_witness :
  forallb plain_segment (repeat "a" 102) = true
  /\ VObj [("a", VStr "x")] <> VUndef
  /\ getContentProps (VObj [("a", VStr "x")]) (Str.join (repeat "a" 102)) 0
     = (Val (VArr [VUndef]), [limit_line]).
Proof.
  assert (H1 : VObj [("a", VStr "x")] <> VUndef) by discriminate.
  assert (H2 : VObj [("a", VStr "x")] <> VNull) by discriminate.
  assert (Hi : 0 <= 100) by lia.
  assert (Hl : 102 <= 0 + length (repeat "a" 102)) by (rewrite repeat_length; lia).
  split; [reflexivity |]. split; [exact H1 |].
  exact (@getContentProps_long_path _ (repeat "a" 102) 0 eq_refl H1 H2 Hi Hl).
Defined.

(** X17.  [@each] on a boolean, a number, a string or an object without a
    [forEach] property resolves to nothing, silently, whatever follows it in
    the path; on [undefined] or [null] the test [item.forEach] itself
    throws, and the call returns [undefined] after one line on the
    console. *)
Theorem getContentProps_each_not_iterable property propArr inception :
  Str.split Str.re_dots property = "@each" :: propArr -> inception <= 100 ->
  (forall b, getContentProps (VBool b) property inception = (Val (VArr []), []))
  /\ (forall n, getContentProps (VNum n) property inception = (Val (VArr []), []))
  /\ (forall s, getContentProps (VStr s) property inception = (Val (VArr []), []))
  /\ (forall fields,
        truthy (own_property "forEach" fields) = false ->
        getContentProps (VObj fields) property inception = (Val (VArr []), []))
  /\ getContentProps VUndef property inception
     = (Val VUndef,
        [("getContentProps", TypeError "Cannot read property 'forEach'")])
  /\ getContentProps VNull property inception
     = (Val VUndef,
        [("getContentProps", TypeError "Cannot read property 'forEach'")]).
Proof.
  intros E Hi. apply Nat.ltb_ge in Hi.
  assert (G : forall item,
            getContentProps item property inception
            = try_catch "getContentProps" VUndef
                (values <-
                   (each <- item_forEach item ;;
                    match each with
                    | Some elems =>
                        r <- forEach elems
                               (each_element getContentProps propArr)
                               ([], inception) ;;
                        ret (fst r)
                    | None => ret []
                    end) ;;
                 ret (VArr values))).
  { intros item. rewrite getContentProps_unfold. unfold getContentProps_body.
    now rewrite E, Hi. }
  repeat split; intros; rewrite G; cbn [item_forEach]; try reflexivity.
  now rewrite H.
Qed.

Lemma getContentProps_each_not_iterable_witness :
  Str.split Str.re_dots "@each.name" = ["@each"; "name"]
  /\ getContentProps (VStr "abc") "@each.name" 0 = (Val (VArr []), []).
Proof.
  assert (Hi : 0 <= 100) by lia.
  split; [reflexivity |].
  exact (proj1 (proj2 (proj2 (@getContentProps_each_not_iterable "@each.name"
                                ["name"] 0 eq_refl Hi))) "abc").
Defined.

Lemma forEach_each_walk segs elems vals values inception :
  Forall2 (fun i v => walk i segs v) elems vals ->
  forallb plain_segment segs = true ->
  inception + length elems + length segs <= 101 ->
  forEach elems (each_element getContentProps segs) (values, inception)
  = (Val (values ++ flat_map values_of vals, inception + length elems), []).
Proof.
  intros F Hsegs. revert values inception.
  induction F as [| i v elems vals W F IH]; intros values inception Hlen.
  - cbn. now rewrite app_nil_r, Nat.add_0_r.
  - cbn [forEach each_element flat_map length] in *.
    pose proof (walk_not_nil W) as Hne.
    destruct segs as [| q segs]; [congruence |].
    rewrite (@getContentProps_walk_values i (q :: segs) v (S inception) W Hsegs)
      by lia.
    rewrite bind_val_nil. cbn [Array_concat]. rewrite bind_ret.
    rewrite IH by lia. now rewrite <- app_assoc, Nat.add_succ_r.
Qed.

(** X18.  [@each] followed by plain segments, on an array of at most 100
    elements (less the length of the path): the result is the values found
    at the end of the path in each element, in the order of the elements,
    falsy values left out and arrays spread; nothing is written to the
    console. *)
Theorem getContentProps_each_values segs elems vals :
  Forall2 (fun i v => walk i segs v) elems vals ->
  forallb plain_segment segs = true ->
  length elems + length segs <= 101 ->
  getContentProps (VArr elems) (Str.join ("@each" :: segs)) 0
  = (Val (VArr (flat_map values_of vals)), []).
Proof.
  intros F Hsegs Hlen.
  eapply getContentProps_each; [| lia |].
  - apply split_join; [discriminate |]. cbn [forallb].
    now rewrite (plain_segment_segment _ Hsegs).
  - now rewrite (@forEach_each_walk segs elems vals [] 0 F Hsegs) by lia.
Qed.

Lemma getContentProps_each_values_witness :
  Forall2 (fun i v => walk i ["n"] v)
    [VObj [("n", VStr "a")]; VObj [("n", VNum 0)];
     VObj [("n", VArr [VStr "b"; VStr "c"])]]
    [VStr "a"; VNum 0; VArr [VStr "b"; VStr "c"]]
  /\ getContentProps
       (VArr [VObj [("n", VStr "a")]; VObj [("n", VNum 0)];
              VObj [("n", VArr [VStr "b"; VStr "c"])]])
       (Str.join ["@each"; "n"]) 0
     = (Val (VArr [VStr "a"; VStr "b"; VStr "c"]), []).
Proof.
  assert (F : Forall2 (fun i v => walk i ["n"] v)
                [VObj [("n", VStr "a")]; VObj [("n", VNum 0)];
                 VObj [("n", VArr [VStr "b"; VStr "c"])]]
                [VStr "a"; VNum 0; VArr [VStr "b"; VStr "c"]]).
  { repeat constructor. }
  assert (L : length [VObj [("n", VStr "a")]; VObj [("n", VNum 0)];
                      VObj [("n", VArr [VStr "b"; VStr "c"])]]
              + length ["n"] <= 101) by (cbn; lia).
  split; [exact F |].
  exact (@getContentProps_each_values ["n"] _ _ F eq_refl L).
Defined.

(** ** The console *)

Lemma bind_lines {A B} p (m : M A) (f : A -> M B) :
  lines p m -> (forall a, lines p (f a)) -> lines p (bind m f).
Proof.
  unfold lines. destruct m as [[a | e |] out]; cbn; intros Hm Hf; trivial.
  specialize (Hf a). destruct (f a) as [r out']. cbn in *.
  now rewrite forallb_app, Hm, Hf.
Qed.

Lemma ret_lines {A} p (a : A) : lines p (ret a).
Proof. reflexivity. Qed.

Lemma try_catch_lines {A} p name (u : A) (m : M A) :
  lines p m -> (forall e, p (name, e) = true) -> lines p (try_catch name u m).
Proof.
  unfold lines. destruct m as [[a | e |] out]; cbn; intros Hm Hp; trivial.
  now rewrite forallb_app, Hm; cbn; rewrite Hp.
Qed.

Lemma forEach_lines {A S} p (l : list A) (f : A -> S -> M S) (s : S) :
  (forall x s', lines p (f x s')) -> lines p (forEach l f s).
Proof.
  intros Hf. revert s. induction l as [| x l IH]; intros s; cbn [forEach];
    [reflexivity |].
  apply bind_lines; [apply Hf | apply IH].
Qed.

Lemma Array_filter_lines {A S} p (l : list A)
  (f : A -> S -> M (bool * S)) (s : S) :
  (forall x s', lines p (f x s')) -> lines p (Array_filter l f s).
Proof.
  intros Hf. revert s. induction l as [| x l IH]; intros s;
    cbn [Array_filter]; [reflexivity |].
  apply bind_lines; [apply Hf | intros r].
  apply bind_lines; [apply IH | intros; reflexivity].
Qed.

Lemma Ember_get_lines p obj key : lines p (Ember_get obj key).
Proof.
  destruct (Ember_get_cases obj key) as [(msg & ->) | (v & ->)]; reflexivity.
Qed.

Lemma item_forEach_lines p item : lines p (item_forEach item).
Proof.
  destruct (item_forEach_cases item) as [(msg & ->) | (v & ->)]; reflexivity.
Qed.

Lemma getContentProps_lines item property inception :
  lines helper_line (getContentProps item property inception).
Proof.
  unfold getContentProps. generalize (S (String.length property)) as fuel.
  intros fuel. revert item property inception.
  induction fuel as [| fuel IH]; intros item property inception;
    [reflexivity |].
  cbn [getContentProps_rec]. unfold getContentProps_body.
  apply try_catch_lines; [| reflexivity].
  destruct (Str.split Str.re_dots property) as [| prop propArr];
    [reflexivity |].
  destruct (100 <? inception); [reflexivity |].
  apply bind_lines; [| intros; reflexivity].
  destruct (String.eqb prop "@each").
  - apply bind_lines; [apply item_forEach_lines |]. intros [elems |];
      [| reflexivity].
    apply bind_lines; [| intros; reflexivity].
    apply forEach_lines. intros x [values n]. unfold each_element.
    destruct propArr; [reflexivity |].
    apply bind_lines; [apply IH | intros; reflexivity].
  - apply bind_lines; [apply Ember_get_lines |]. intros got. cbn zeta.
    destruct propArr; [reflexivity |].
    apply bind_lines; [apply IH | intros; reflexivity].
Qed.

Lemma aContainsB_lines RegExp a b : lines helper_line (aContainsB RegExp a b).
Proof.
  unfold aContainsB, new_RegExp.
  destruct (is_matchType (typeOf a) && is_matchType (typeOf b));
    [| reflexivity].
  destruct (RegExp (ToString b)); [| reflexivity].
  destruct a; reflexivity.
Qed.

Lemma scan_values_lines RegExp values query :
  lines helper_line (scan_values RegExp values query).
Proof.
  induction values as [| v values IH]; cbn [scan_values]; [reflexivity |].
  apply bind_lines; [apply aContainsB_lines |]. intros r.
  destruct (truthy r); [reflexivity | exact IH].
Qed.

(** X19.  [applyFilter] never ends in its own [catch]: it always stores a
    result, and every line on the console comes from [getContentProps] or
    from [aContainsB]. *)
Theorem applyFilter_console RegExp content properties query :
  (exists kept out,
     applyFilter RegExp content properties query = (Val (Some kept), out))
  /\ forallb helper_line (snd (applyFilter RegExp content properties query))
     = true.
Proof.
  unfold applyFilter.
  destruct (negb (length content =? 0)
            && negb (length (normalizedProperties properties) =? 0)
            && negb (Str.is_empty (normalizedQuery query)));
    [| split; [now exists content, [] | reflexivity]].
  pose proof (@Array_filter_lines value (list value) helper_line content
                (filter_item RegExp (normalizedProperties properties)
                   (normalizedQuery query)) []) as L.
  destruct (Array_filter_filter_item RegExp (normalizedProperties properties)
              (normalizedQuery query) content) as (out & E).
  rewrite E in *. split; [now exists (filter (accepts RegExp
                                               (normalizedProperties properties)
                                               (normalizedQuery query)) content),
                                      (out ++ []) |].
  cbn. rewrite app_nil_r. apply L. intros item values.
  unfold filter_item. apply bind_lines.
  - apply forEach_lines. intros prop vs.
    apply bind_lines; [apply getContentProps_lines | intros; reflexivity].
  - intros vs. apply bind_lines; [apply scan_values_lines | intros; reflexivity].
Qed.

(** ** The callback, path by path and value by value *)

(** X20.  The scan of the values stops at the first one that matches: the
    values after it are not handed to [aContainsB], so nothing they would
    throw is written to the console. *)
Theorem scan_values_stops RegExp before v after query :
  matches RegExp query v = true ->
  exists rest,
    fst (scan_values RegExp (before ++ v :: after) query) = Val (true, rest)
    /\ snd (scan_values RegExp (before ++ v :: after) query)
       = snd (scan_values RegExp (before ++ [v]) query).
Proof.
  intros Hv. unfold matches in Hv.
  destruct (aContainsB_returns RegExp v (VStr query)) as (r & out & E).
  rewrite E in Hv. change (returned (Val r, out)) with r in Hv.
  induction before as [| b before (rest & IH1 & IH2)].
  - exists after. cbn [app scan_values]. rewrite E, !bind_val, Hv.
    split; reflexivity.
  - cbn [app scan_values].
    destruct (aContainsB_returns RegExp b (VStr query)) as (rb & outb & Eb).
    rewrite Eb, !bind_val. destruct (truthy rb).
    + exists (before ++ v :: after). split; reflexivity.
    + exists rest. split; [exact IH1 |]. cbn [snd]. now rewrite IH2.
Qed.

Lemma scan_values_stops_witness :
  matches literal_RegExp "ed" (VStr "red") = true
  /\ snd (scan_values literal_RegExp [VNum 1; VStr "red"; VNum 2; VNum 3] "ed")
     = snd (scan_values literal_RegExp [VNum 1; VStr "red"] "ed").
Proof.
  split; [reflexivity |].
  destruct (@scan_values_stops literal_RegExp [VNum 1] (VStr "red")
              [VNum 2; VNum 3] "ed" eq_refl) as (rest & _ & H).
  exact H.
Defined.

Lemma Array_concat_acc values x :
  Array_concat values x = values ++ Array_concat [] x.
Proof. destruct x; reflexivity. Qed.

Lemma resolved_acc item properties values :
  fold_left
    (fun values0 prop =>
       Array_concat values0
         (or_else (returned (getContentProps item prop 0)) (VArr [])))
    properties values
  = values ++ resolved properties item.
Proof.
  unfold resolved. revert values.
  induction properties as [| prop properties IH]; intros values;
    cbn [fold_left]; [now rewrite app_nil_r |].
  rewrite IH, (IH (Array_concat [] _)), Array_concat_acc.
  now rewrite app_assoc.
Qed.

Lemma accepts_existsb RegExp properties query item :
  accepts RegExp properties query item
  = existsb (matches RegExp query) (resolved properties item).
Proof.
  unfold accepts, filter_item.
  destruct (forEach_resolved item properties []) as (out1 & ->).
  rewrite bind_val. cbn [fst].
  destruct (scan_values_existsb RegExp
              (fold_left
                 (fun values0 prop =>
                    Array_concat values0
                      (or_else (returned (getContentProps item prop 0))
                         (VArr [])))
                 properties []) query) as (rest & out2 & ->).
  reflexivity.
Qed.

(** X21.  An item is accepted under a list of paths exactly when it is
    accepted under one of them alone: the paths add up, none can veto. *)
Theorem accepts_some_path RegExp properties query item :
  accepts RegExp properties query item
  = existsb (fun prop => accepts RegExp [prop] query item) properties.
Proof.
  induction properties as [| prop properties IH].
  - rewrite accepts_existsb. reflexivity.
  - cbn [existsb]. rewrite <- IH, !accepts_existsb.
    unfold resolved at 1. cbn [fold_left].
    rewrite resolved_acc, existsb_app. reflexivity.
Qed.

(** X22.  The plain case from end to end: for a query without syntax
    characters and a path of plain segments that ends on a string, the item
    is accepted exactly when the string is not empty and the query occurs
    in it. *)
Theorem accepts_string_property RegExp query item segs s :
  literal_law RegExp -> literal query = true ->
  walk item segs (VStr s) -> forallb plain_segment segs = true ->
  length segs <= 101 ->
  accepts RegExp [Str.join segs] query item
  = negb (String.eqb s "") && Str.contains query s.
Proof.
  intros Law Hq W Hsegs Hlen.
  rewrite accepts_existsb. unfold resolved. cbn [fold_left].
  rewrite (@getContentProps_walk_values item segs (VStr s) 0 W Hsegs)
    by (cbn; lia).
  change (returned (Val (VArr (values_of (VStr s))), [])) with
    (VArr (values_of (VStr s))).
  cbn [or_else truthy Array_concat app values_of].
  destruct (String.eqb s ""); [reflexivity |].
  cbn [negb existsb]. rewrite orb_false_r, andb_true_l. unfold matches.
  destruct (Law query Hq) as (regex & E & Hregex).
  rewrite (@aContainsB_string RegExp s query regex E).
  cbn. apply Hregex.
Qed.

Lemma accepts_string_property_witness :
  literal_law literal_RegExp
  /\ walk (VObj [("name", VStr "Fred")]) ["name"] (VStr "Fred")
  /\ accepts literal_RegExp [Str.join ["name"]] "red"
       (VObj [("name", VStr "Fred")])
     = negb (String.eqb "Fred" "") && Str.contains "red" "Fred".
Proof.
  assert (W : walk (VObj [("name", VStr "Fred")]) ["name"] (VStr "Fred"))
    by (apply walk_last; reflexivity).
  assert (L : length ["name"] <= 101) by (cbn; lia).
  split; [exact literal_RegExp_literal_law |]. split; [exact W |].
  exact (@accepts_string_property literal_RegExp "red" _ _ _
           literal_RegExp_literal_law eq_refl W eq_refl L).
Defined.

(* ================================================================== *)
(** * The specification, revisited *)

(** ** Falsy values *)





(** ** The recursion limit, seen from the caller *)

Lemma each_path_segments n : forallb segment (each_path n) = true.
Proof. induction n as [| n IH]; [reflexivity |]. cbn [each_path forallb]. now rewrite IH. Qed.

(** Through nested one-element arrays a path of [@each] segments that is too
    long hits the limit in its innermost call; every call around it hands
    the one [undefined] on. *)
Lemma getContentProps_nest v n inception :
  inception <= 100 -> 102 <= inception + n ->
  getContentProps (nest n v) (Str.join (each_path n)) inception
  = (Val (VArr [VUndef]), [limit_line]).
Proof.
  revert inception. induction n as [| [| n] IH]; intros inception Hi Hn;
    try lia.
  assert (Hsplit : Str.split Str.re_dots (Str.join (each_path (S (S n))))
                   = "@each" :: each_path (S n))
    by (apply split_join; [discriminate | apply each_path_segments]).
  change (nest (S (S n)) v) with (VArr [nest (S n) v]).
  eapply getContentProps_each; [exact Hsplit | exact Hi |].
  cbn [forEach]. unfold each_element at 1.
  change (each_path (S n)) with ("@each" :: each_path n) at 1.
  cbv iota beta.
  destruct (Nat.eq_dec inception 100) as [-> | Hne].
  - rewrite getContentProps_limit by lia. reflexivity.
  - rewrite IH by lia. reflexivity.
Qed.

(** The element after [before] is resolved with the counter of the call plus
    the number of its elder siblings plus one; what it yields is appended to
    the values gathered so far. *)
Lemma getContentProps_each_snoc before x property propArr inception values out :
  Str.split Str.re_dots property = "@each" :: propArr -> propArr <> [] ->
  inception <= 100 ->
  getContentProps (VArr before) property inception = (Val (VArr values), out) ->
  exists y out',
    getContentProps x (Str.join propArr) (S (inception + length before))
    = (Val y, out')
    /\ getContentProps (VArr (before ++ [x])) property inception
       = (Val (VArr (Array_concat values y)), out ++ out').
Proof.
  intros Hsplit Hne Hi Hbefore.
  destruct (forEach_each_more before [] inception Hne) as (vs & o & E).
  rewrite (@getContentProps_each before property propArr inception vs _ o
             Hsplit Hi E) in Hbefore.
  injection Hbefore as -> ->.
  destruct (getContentProps_total x (Str.join propArr)
              (S (inception + length before))) as (y & out' & Ey).
  exists y, out'. split; [exact Ey |].
  eapply getContentProps_each; [exact Hsplit | exact Hi |].
  rewrite forEach_app, E. cbn [bind forEach each_element].
  destruct propArr as [| q propArr]; [congruence |].
  rewrite Ey. cbn. now rewrite !app_nil_r.
Qed.

(** From a call with counter [inception], the first [100 - inception]
    elements are resolved within the limit and their values kept; every
    element after them yields one [undefined] and one line. *)
Lemma getContentProps_each_beyond elems property propArr inception :
  Str.split Str.re_dots property = "@each" :: propArr -> propArr <> [] ->
  inception <= 100 ->
  exists values out,
    getContentProps (VArr (firstn (100 - inception) elems)) property inception
    = (Val (VArr values), out)
    /\ getContentProps (VArr elems) property inception
       = (Val (VArr (values
                     ++ repeat VUndef (length elems - (100 - inception)))),
          out ++ repeat limit_line (length elems - (100 - inception))).
Proof.
  intros Hsplit Hne Hi.
  pose proof (firstn_skipn (100 - inception) elems) as Helems.
  pose proof (length_firstn (100 - inception) elems) as Hfirst.
  pose proof (length_skipn (100 - inception) elems) as Hrest.
  pose proof (@skipn_all2 value (100 - inception) elems) as Hall.
  set (first := firstn (100 - inception) elems) in *.
  set (rest := skipn (100 - inception) elems) in *. clearbody first rest.
  destruct (forEach_each_more first [] inception Hne) as (vs & o & E).
  exists vs, o. split.
  - eapply getContentProps_each; [exact Hsplit | exact Hi | exact E].
  - rewrite <- Hrest.
    destruct (Nat.le_gt_cases (length elems) (100 - inception)) as [Hle | Hgt];
      (eapply getContentProps_each; [exact Hsplit | exact Hi |]);
      rewrite <- Helems, forEach_app, E.
    + rewrite (Hall Hle). cbn. now rewrite !app_nil_r.
    + rewrite bind_val, forEach_each_limit by (trivial; lia).
      reflexivity.
Qed.

(** C4, amended.  A call of [getContentProps] entered with a counter above
    100 throws; the same call catches the exception, writes it to the
    console and returns [undefined].  Its caller goes on: after a lookup it
    returns the array [[undefined]]; under [@each] it appends [undefined] to
    the values gathered from the elder siblings, which are kept, so the
    elements resolved within the limit keep their values and each element
    past it adds one [undefined] and one line.  Through arrays nested too
    deep the top-level call returns [[undefined]].  The top-level call on an
    item never fails because of the limit: it returns an array, or
    [undefined] after an exception of its own first lookup.  [applyFilter]
    always stores a result, in which every item is judged on its own, so the
    other items are filtered as usual. *)
Theorem recursion_limit_contained RegExp :
  (forall item property inception,
     100 < inception ->
     getContentProps item property inception = (Val VUndef, [limit_line]))
  /\ (forall values, Array_concat values VUndef = values ++ [VUndef])
  /\ (forall item property prop propArr got,
        Str.split Str.re_dots property = prop :: propArr -> propArr <> [] ->
        String.eqb prop "@each" = false -> Ember_get item prop = ret got ->
        getContentProps item property 100
        = (Val (VArr [VUndef]), [limit_line]))
  /\ (forall item property prop propArr got inception x out,
        Str.split Str.re_dots property = prop :: propArr -> propArr <> [] ->
        inception <= 100 ->
        String.eqb prop "@each" = false -> Ember_get item prop = ret got ->
        getContentProps (or_else got (VArr [])) (Str.join propArr)
          (S inception) = (Val x, out) ->
        getContentProps item property inception
        = (Val (VArr (Array_concat [] x)), out))
  /\ (forall before x property propArr inception values out,
        Str.split Str.re_dots property = "@each" :: propArr ->
        propArr <> [] -> inception <= 100 ->
        getContentProps (VArr before) property inception
        = (Val (VArr values), out) ->
        exists y out',
          getContentProps x (Str.join propArr)
            (S (inception + length before)) = (Val y, out')
          /\ getContentProps (VArr (before ++ [x])) property inception
             = (Val (VArr (Array_concat values y)), out ++ out')
          /\ (100 <= inception + length before ->
              y = VUndef /\ out' = [limit_line]))
  /\ (forall elems property propArr inception,
        Str.split Str.re_dots property = "@each" :: propArr ->
        propArr <> [] -> inception <= 100 ->
        exists values out,
          getContentProps (VArr (firstn (100 - inception) elems)) property
            inception = (Val (VArr values), out)
          /\ getContentProps (VArr elems) property inception
             = (Val (VArr (values
                           ++ repeat VUndef
                                (length elems - (100 - inception)))),
                out ++ repeat limit_line (length elems - (100 - inception))))
  /\ (forall v n,
        102 <= n ->
        getContentProps (nest n v) (Str.join (each_path n)) 0
        = (Val (VArr [VUndef]), [limit_line]))
  /\ (forall item property,
        (exists values out,
           getContentProps item property 0 = (Val (VArr values), out))
        \/ (exists msg,
              getContentProps item property 0
              = (Val VUndef, [("getContentProps", TypeError msg)]))
        \/ (exists msg,
              getContentProps item property 0
              = (Val VUndef, [("getContentProps", AssertionError msg)])))
  /\ (forall content properties query,
        filteredContent RegExp content properties query
        = Some (if filters content properties query
                then filter (accepts RegExp (normalizedProperties properties)
                               (normalizedQuery query)) content
                else content)).
Proof.
  split; [| split; [| split; [| split; [| split; [| split; [| split;
    [| split]]]]]]].
  - intros item property inception H. now apply getContentProps_limit.
  - reflexivity.
  - intros item property prop propArr got E Hne Hp Hg.
    rewrite (@getContentProps_lookup item property prop propArr got 100
               VUndef [limit_line]); trivial.
    apply getContentProps_limit. lia.
  - intros item property prop propArr got inception x out E Hne Hi Hp Hg Hx.
    now apply (@getContentProps_lookup item property prop propArr got).
  - intros before x property propArr inception values out E Hne Hi Hb.
    destruct (@getContentProps_each_snoc before x property propArr inception
                values out E Hne Hi Hb) as (y & out' & Hy & Hr).
    exists y, out'. split; [exact Hy |]. split; [exact Hr |].
    intros Hover. rewrite getContentProps_limit in Hy by lia.
    injection Hy as <- <-. now split.
  - intros elems property propArr inception E Hne Hi.
    now apply (@getContentProps_each_beyond elems property propArr).
  - intros v n Hn. apply getContentProps_nest; lia.
  - intros item property. apply getContentProps_within_limit. lia.
  - apply filteredContent_spec.
Qed.

Lemma recursion_limit_contained_witness :
  100 < 101
  /\ getContentProps (VArr [VStr "red"]) "@each" 101 = (Val VUndef, [limit_line])
  /\ Str.split Str.re_dots "@each.n" = ["@each"; "n"]
  /\ exists values out,
       getContentProps
         (VArr (firstn (100 - 0) (repeat (VObj [("n", VStr "red")]) 101)))
         "@each.n" 0 = (Val (VArr values), out)
       /\ getContentProps (VArr (repeat (VObj [("n", VStr "red")]) 101))
            "@each.n" 0
          = (Val (VArr (values
                        ++ repeat VUndef
                             (length (repeat (VObj [("n", VStr "red")]) 101)
                              - (100 - 0)))),
             out ++ repeat limit_line
                      (length (repeat (VObj [("n", VStr "red")]) 101)
                       - (100 - 0))).
Proof.
  assert (H : 100 < 101) by lia.
  assert (Hne : ["n"] <> []) by discriminate.
  assert (Hi : 0 <= 100) by lia.
  split; [exact H |].
  split; [exact (proj1 (recursion_limit_contained literal_RegExp)
                   (VArr [VStr "red"]) "@each" 101 H) |].
  split; [reflexivity |].
  exact (proj1 (proj2 (proj2 (proj2 (proj2 (proj2
           (recursion_limit_contained literal_RegExp))))))
           (repeat (VObj [("n", VStr "red")]) 101) "@each.n" ["n"] 0
           eq_refl Hne Hi).
Defined.

(** ** Periods next to whitespace *)

Lemma replace_periods_id by_ s :
  no_double_dot s = true -> Str.replace Str.re_periods by_ s = s.
Proof.
  unfold Str.replace. induction s as [| c t IH]; [reflexivity |].
  cbn [no_double_dot]. intros H. apply andb_prop in H as [Hc Ht].
  cbn [Str.replace_from]. rewrite re_periods_cons, (IH Ht).
  destruct (Str.is_dot c); [| reflexivity].
  cbn in Hc. apply negb_true_iff in Hc. rewrite starts_with_dot_run in Hc.
  apply negb_false_iff, Nat.eqb_eq in Hc. now rewrite Hc.
Qed.

Lemma no_double_dot_tight_app p tail :
  tight p = true -> no_double_dot (p ++ tail) = no_double_dot tail.
Proof.
  induction p as [| c t IH]; intros H; [reflexivity |].
  apply tight_cons in H as (_ & Ht & Hd). cbn [append no_double_dot].
  rewrite (IH Ht). destruct (Str.is_dot c); [| reflexivity].
  destruct (Hd eq_refl) as (c' & t' & -> & Hc'). cbn. now rewrite Hc'.
Qed.

Lemma tight_no_double_dot p : tight p = true -> no_double_dot p = true.
Proof.
  intros H. rewrite <- (append_empty_r p). now rewrite no_double_dot_tight_app.
Qed.

Lemma replace_tight re by_ p :
  (forall c t tail,
     tight (String c t) = true -> re (String c t ++ tail)%string = None) ->
  tight p = true -> Str.replace_from re by_ 0 p = p.
Proof.
  intros Hre Hp. rewrite <- (append_empty_r p) at 1.
  rewrite replace_from_tight by auto. apply append_empty_r.
Qed.

Lemma re_delimiter_dot_space q :
  Str.run Str.is_dot q = 0 ->
  Str.re_delimiter (String "." (String " " q)) = Some 2.
Proof. intros H. unfold Str.re_delimiter. cbn. rewrite ?H. reflexivity. Qed.

Lemma re_delimiter_dot_space_dot q :
  Str.run Str.is_dot q = 0 ->
  Str.re_delimiter (String "." (String " " (String "." q))) = Some 3.
Proof. intros H. unfold Str.re_delimiter. cbn. rewrite ?H. reflexivity. Qed.

(** The steps of [normalizedProperties] on a string of valid characters
    without two periods in a row, once the delimiters are known. *)
Lemma normalizedProperties_via_delimiter s paths :
  Str.is_empty s = false -> all_chars Str.is_valid s = true ->
  no_double_dot s = true ->
  Str.replace Str.re_delimiter " " s = String.concat " " paths ->
  paths <> [] -> forallb tight_path paths = true ->
  normalizedProperties s = paths.
Proof.
  intros Hne Hvalid Hdots Hdelim Hpaths Htight.
  unfold normalizedProperties. rewrite Hne. unfold Str.re_invalid.
  rewrite (@replace_runs_keep Str.is_valid) by reflexivity.
  rewrite keep_all, replace_periods_id, Hdelim by assumption.
  rewrite split_concat_tight by assumption.
  now apply filter_nonempty_all.
Qed.

Lemma tight_path_head q :
  tight_path q = true -> starts_with_dot q = false ->
  exists c t, q = String c t /\ tight q = true
              /\ Str.run Str.is_dot q = 0.
Proof.
  unfold tight_path. intros H Hd. apply andb_prop in H as [Hne Ht].
  destruct q as [| c t]; [discriminate |]. exists c, t.
  split; [reflexivity |]. split; [exact Ht |].
  cbn in *. now rewrite Hd.
Qed.

(** C6, as stated, fails.  A period next to whitespace is not always part
    of the delimiter: the expression takes a period after the whitespace
    only as the repetition of one before it, so here the period stays at
    the head of the second path. *)
Lemma normalizedProperties_stray_period_kept :
  normalizedProperties "first .name" = ["first"; ".name"].
Proof. vm_compute. reflexivity. Qed.

(** C6, amended.  The properties "first.name  last..name" normalize to the
    two paths "first.name" and "last.name", in that order: the double period
    is collapsed, the whitespace separates the paths and leaves no empty
    one.  In general no normalized path is empty, holds whitespace or has two
    periods in a row.  Between two paths, whitespace is the delimiter alone,
    with a period right before it, and with a period on either side; a
    period that only follows the whitespace stays at the head of the next
    path. *)
Theorem normalizedProperties_paths :
  normalizedProperties "first.name  last..name" = ["first.name"; "last.name"]
  /\ Str.replace Str.re_periods "." "last..name" = "last.name"
  /\ (forall properties,
        forallb clean_path (normalizedProperties properties) = true)
  /\ (forall p q,
        tight_path p = true -> tight_path q = true ->
        starts_with_dot q = false ->
        normalizedProperties (p ++ " " ++ q) = [p; q]
        /\ normalizedProperties (p ++ ". " ++ q) = [p; q]
        /\ normalizedProperties (p ++ ". ." ++ q) = [p; q]
        /\ normalizedProperties (p ++ " ." ++ q) = [p; ("." ++ q)%string]).
Proof.
  split; [vm_compute; reflexivity |]. split; [vm_compute; reflexivity |].
  split.
  { intros properties. unfold normalizedProperties.
    destruct (Str.is_empty properties); [reflexivity |].
    apply (forallb_filter (fun z => negb (String.eqb z ""))).
    apply forallb_and; [apply split_spaces_no_space |].
    apply split_no_double_dot, replace_space_no_double_dot,
      replace_periods_no_double_dot. }
  intros p q Hp Hq Hd.
  destruct (tight_path_head q Hq Hd) as (c & t & Eq & Htq & Hrun).
  assert (Htp : tight p = true)
    by (unfold tight_path in Hp; now apply andb_prop in Hp).
  assert (Hpne : forall tail, Str.is_empty (p ++ tail) = false).
  { intros tail. unfold tight_path in Hp. destruct p; [discriminate |].
    reflexivity. }
  assert (Hdq : tight_path ("." ++ q) = true).
  { assert (Hqe : Str.is_empty q = false) by (rewrite Eq; reflexivity).
    unfold tight_path. cbn [append Str.is_empty negb andb].
    change (tight (String "." q))
      with (path_char "."
            && (negb (Str.is_dot ".")
                || (negb (Str.is_empty q) && negb (starts_with_dot q)))
            && tight q).
    rewrite Htq, Hd, Hqe. reflexivity. }
  assert (Pair : forall q', tight_path q' = true ->
            normalizedProperties (p ++ String " " q') = [p; q']).
  { intros q' Hq'.
    assert (Hq't : tight q' = true)
      by (unfold tight_path in Hq'; now apply andb_prop in Hq').
    apply normalizedProperties_via_delimiter; trivial.
    - rewrite all_chars_append, (@tight_valid p Htp). cbn [all_chars andb].
      now apply tight_valid.
    - rewrite no_double_dot_tight_app by exact Htp.
      cbn [no_double_dot]. now apply tight_no_double_dot.
    - apply (@replace_concat_tight Str.re_delimiter " " [p; q']).
      + intros c0 t0 tail. apply re_delimiter_tight.
      + reflexivity.
      + cbn [forallb]. now rewrite Hp, Hq'.
    - discriminate.
    - cbn [forallb]. now rewrite Hp, Hq'. }
  assert (Via : forall D,
            all_chars Str.is_valid D = true ->
            no_double_dot (D ++ q) = true ->
            Str.replace_from Str.re_delimiter " " 0 (D ++ q)
            = String " " q ->
            normalizedProperties (p ++ D ++ q) = [p; q]).
  { intros D HD Hnd Hrep.
    apply normalizedProperties_via_delimiter; trivial.
    - rewrite !all_chars_append, (@tight_valid p Htp), HD.
      now rewrite (@tight_valid q Htq).
    - now rewrite no_double_dot_tight_app by exact Htp.
    - unfold Str.replace.
      rewrite replace_from_tight, Hrep;
        [reflexivity | intros; now apply re_delimiter_tight | exact Htp].
    - discriminate.
    - cbn [forallb]. now rewrite Hp, Hq. }
  assert (Rq : Str.replace_from Str.re_delimiter " " 0 q = q).
  { apply replace_tight; [intros; now apply re_delimiter_tight | exact Htq]. }
  assert (Nq : no_double_dot q = true) by now apply tight_no_double_dot.
  split; [| split; [| split]].
  - now apply Pair.
  - apply (Via ". "); [reflexivity | |].
    + cbn [append no_double_dot starts_with_dot]. exact Nq.
    + cbn [append Str.replace_from].
      rewrite (re_delimiter_dot_space _ Hrun). cbn [append Str.replace_from].
      now rewrite Rq.
  - apply (Via ". ."); [reflexivity | |].
    + cbn [append no_double_dot starts_with_dot]. rewrite Hd. exact Nq.
    + cbn [append Str.replace_from].
      rewrite (re_delimiter_dot_space_dot _ Hrun).
      cbn [append Str.replace_from]. now rewrite Rq.
  - apply (Pair ("." ++ q)%string). exact Hdq.
Qed.

Lemma normalizedProperties_paths_witness :
  tight_path "first" = true /\ tight_path "name" = true
  /\ starts_with_dot "name" = false
  /\ normalizedProperties ("first" ++ ". ." ++ "name") = ["first"; "name"]
  /\ normalizedProperties ("first" ++ " ." ++ "name")
     = ["first"; ("." ++ "name")%string].
Proof.
  pose proof (proj2 (proj2 (proj2 normalizedProperties_paths))
                "first" "name" eq_refl eq_refl eq_refl) as H.
  split; [reflexivity |]. split; [reflexivity |]. split; [reflexivity |].
  split; [exact (proj1 (proj2 (proj2 H))) | exact (proj2 (proj2 (proj2 H)))].
Defined.

(** ** After a lookup that found nothing *)



